(** * WasteNot Kitchen: the meal-plan optimisation endpoint

    A shallow embedding of [solve_meal_plan] (backend/server.py): the
    construction of the integer linear programmes, the three-tier
    relaxation pipeline around the external solver, and the extraction of
    the schedule from the solver's assignment.

    Modelling conventions.
    - Python dictionaries ([inventory], a recipe's [ingredients], the
      variable table [x]) are finite maps with unique keys; JSON numbers
      that enter linear expressions are exact rationals ([Q]), compared
      with [==]: binary floating-point rounding of sums and products is
      not modelled.
    - PuLP is an external library, modelled by its contract: a problem is
      an objective and a list of named constraints; [prob += c, name]
      raises [PulpError] when the text PuLP keeps for the name is already
      taken; the solver itself is a parameter of the development, and it
      may raise.
    - The server's standard output is a parameter too: [print] raises
      [UnicodeEncodeError] on a text the stream cannot encode. The stream
      is taken to encode every well-formed text, as UTF-8 does, so that
      it can refuse a lone surrogate only. The warning of the expiry
      handler prints request strings as they are; the other messages
      print lists and numbers, whose representation escapes surrogates,
      and are not modelled.
    - A string is the sequence of the bytes of its UTF-8 encoding, a lone
      surrogate being written in the generalised encoding (ED A0 80 for
      U+D800). PuLP's special characters are ASCII, so replacing them
      byte by byte is replacing them character by character.
    - Exceptions are values of [exn]; the endpoint's outer [try/except]
      turns every one of them into the HTTP 500 response. *)

From stdpp Require Import gmap strings list fin_maps pretty.
From Stdlib Require Import Ascii QArith Qround Lqa.

Set Warnings "-clear-no-such-hyp".

Close Scope Q_scope.
Open Scope string_scope.
Open Scope list_scope.

(** ** Python values and the numeric conversions used by the endpoint *)

(** A Python [float]: a finite double (an exact rational), an infinity, or
    a NaN. *)
Inductive pyfloat :=
  | FFinite (q : Q)
  | FInf (negative : bool)
  | FNaN.

(** The JSON values that can sit in the [days_until_expiry] field. *)
Inductive pyval :=
  | JInt (z : Z)
  | JFloat (f : pyfloat)
  | JStr (s : string)
  | JBool (b : bool)
  | JNull
  | JList
  | JDict.

Inductive exn :=
  | ValueError | TypeError | OverflowError | PulpError
  | UnicodeEncodeError | PulpSolverError.

Inductive result (A : Type) :=
  | Ok (a : A)
  | Raise (e : exn).
Arguments Ok {A} a.
Arguments Raise {A} e.

Definition rbind {A B} (r : result A) (k : A → result B) : result B :=
  match r with
  | Ok a => k a
  | Raise e => Raise e
  end.

(** [round(x)] on a finite float: to the nearest integer, ties to the even
    one. *)
Definition round_half_even (q : Q) : Z :=
  let f := Qfloor q in
  match Qcompare (q - inject_Z f) (1 # 2) with
  | Lt => f
  | Gt => (f + 1)%Z
  | Eq => if Z.even f then f else (f + 1)%Z
  end.

(** [float(z)] for a Python [int]: exact below 2^53, otherwise rounded to
    53 significant bits (ties to even); [OverflowError] when the result
    does not fit a double. *)
Definition float_of_int (z : Z) : result pyfloat :=
  let a := Z.abs z in
  if (a <? 2 ^ 53)%Z then Ok (FFinite (inject_Z z))
  else
    let e := (Z.log2 a - 52)%Z in
    let m := Z.shiftr a e in
    let rem := (a mod 2 ^ e)%Z in
    let half := (2 ^ (e - 1))%Z in
    let m' := if (half <? rem)%Z || ((rem =? half)%Z && Z.odd m)
              then (m + 1)%Z else m in
    let v := (m' * 2 ^ e)%Z in
    if (2 ^ 1024 <=? v)%Z then Raise OverflowError
    else Ok (FFinite (inject_Z (Z.sgn z * v))).

(** [round(f)] for a float, as used under [int(...)]. *)
Definition py_round (f : pyfloat) : result Z :=
  match f with
  | FFinite q => Ok (round_half_even q)
  | FInf _ => Raise OverflowError
  | FNaN => Raise ValueError
  end.

(** ** Data model of a request *)

(** The value stored under an inventory key: a JSON object with the
    optional fields [qty], [expiry_weight] and [days_until_expiry], a bare
    number, or anything else. *)
Inductive item_data :=
  | ItemDict (qty : option Q) (expiry_weight : option Q)
             (days_until_expiry : option pyval)
  | ItemNumber (q : Q)
  | ItemOther.

Record recipe := {
  recipe_id : Z;
  title : string;
  r_ingredients : option (gmap string Q)
}.

(** [r.get('ingredients', {})] *)
Definition ingredients (r : recipe) : gmap string Q :=
  default ∅ (r_ingredients r).

(** ** Linear programmes *)

(** The key of the variable table [x]: (day index, meal type, recipe id).
    The variable stored under a key is named after the key, so variables
    and keys are identified. *)
Definition var : Type := nat * string * Z.

Inductive sense := LE | EQ.

Record LpConstraint := {
  lhs : list (Q * var);
  csense : sense;
  rhs : Q
}.

(** Constraint names. [ExpiredItem 1], [ExpiredItem 2] and [ExpiredItem 3]
    stand for the prefixes [ExpiredItem_], [ExpiredItem2_] and
    [ExpiredItem3_] of the three tiers. *)
Inductive cname :=
  | AtMostOneRecipePerMeal (d : nat) (m : string)
  | NoDuplicateRecipe (d : nat) (rid : Z)
  | InventoryLimit (item : string)
  | ExpiredItem (tier : nat) (item : string) (d : nat) (m : string) (rid : Z)
  | NoConsecutive (d : nat) (m : string) (rid : Z).

#[global] Instance cname_eq_dec : EqDecision cname.
Proof. solve_decision. Defined.

(** The text of a name, as the f-strings of the endpoint build it. *)
Definition tier_tag (tier : nat) : string :=
  match tier with
  | 1 => ""
  | _ => pretty tier
  end.

Definition name_text (name : cname) : string :=
  match name with
  | AtMostOneRecipePerMeal d m =>
      "AtMostOneRecipePerMeal_" +:+ pretty d +:+ "_" +:+ m
  | NoDuplicateRecipe d rid =>
      "NoDuplicateRecipe_" +:+ pretty d +:+ "_" +:+ pretty rid
  | InventoryLimit item => "InventoryLimit_" +:+ item
  | ExpiredItem tier item d m rid =>
      "ExpiredItem" +:+ (tier_tag tier +:+ ("_" +:+ item +:+ "_Day" +:+ pretty d
        +:+ "_Meal" +:+ m +:+ "_Recipe" +:+ pretty rid))
  | NoConsecutive d m rid =>
      "NoConsecutive_" +:+ pretty d +:+ "_" +:+ m +:+ "_" +:+ pretty rid
  end.

(** PuLP keeps a constraint under its name with each of the characters
    [-], [+], [[], []] and the space replaced by an underscore
    ([LpAffineExpression.trans]). *)
Definition translate (c : ascii) : ascii :=
  if (c =? "-")%char || (c =? "+")%char || (c =? "[")%char ||
     (c =? "]")%char || (c =? " ")%char
  then "_"%char else c.

Fixpoint sanitise (s : string) : string :=
  match s with
  | EmptyString => EmptyString
  | String c s => String (translate c) (sanitise s)
  end.

Definition render (name : cname) : string := sanitise (name_text name).

(** The family of a name: whether it names an expiry constraint, the same
    name under another tier, and the letter its text starts with. *)
Definition is_expiry (n : cname) : bool :=
  match n with
  | ExpiredItem _ _ _ _ _ => true
  | _ => false
  end.

Definition retag (tier : nat) (n : cname) : cname :=
  match n with
  | ExpiredItem _ item d m rid => ExpiredItem tier item d m rid
  | _ => n
  end.

Definition initial (n : cname) : ascii :=
  match n with
  | AtMostOneRecipePerMeal _ _ => "A"
  | NoDuplicateRecipe _ _ | NoConsecutive _ _ _ => "N"
  | InventoryLimit _ => "I"
  | ExpiredItem _ _ _ _ _ => "E"
  end%char.

Record LpProblem := {
  objective : list (Q * var);
  constraints : list (cname * LpConstraint)
}.

Definition empty_problem : LpProblem :=
  {| objective := []; constraints := [] |}.

Definition names (p : LpProblem) : list cname := (constraints p).*1.

(** A step of model construction: it updates the problem or raises. *)
Definition action : Type := LpProblem → result LpProblem.

Definition skip : action := λ p, Ok p.

Definition then_ (a b : action) : action := λ p, rbind (a p) b.
Notation "a >> b" := (then_ a b) (at level 62, right associativity).

Fixpoint for_each {A} (l : list A) (body : A → action) : action :=
  match l with
  | [] => skip
  | x :: l => body x >> for_each l body
  end.

(** [prob += lpSum(terms), "Maximize_Weighted_Inventory_Usage"] *)
Definition set_objective (terms : list (Q * var)) : action :=
  λ p, Ok {| objective := terms; constraints := constraints p |}.

(** [prob += c, name]: PuLP refuses a name whose text is already in
    use. *)
Definition add_constraint (name : cname) (c : LpConstraint) : action :=
  λ p, if decide (render name ∈ render <$> names p) then Raise PulpError
       else Ok {| objective := objective p;
                  constraints := constraints p ++ [(name, c)] |}.

(** Meaning of a linear expression, of a constraint and of a problem under
    an assignment of values to the variables. All variables of the
    endpoint are declared with [cat='Binary']. *)
Definition Qsum (l : list Q) : Q := foldr Qplus 0%Q l.

Definition eval (values : var → Q) (e : list (Q * var)) : Q :=
  Qsum ((λ t, (t.1 * values t.2)%Q) <$> e).

Definition holds (values : var → Q) (c : LpConstraint) : Prop :=
  match csense c with
  | LE => (eval values (lhs c) <= rhs c)%Q
  | EQ => (eval values (lhs c) == rhs c)%Q
  end.

Definition binary (values : var → Q) (v : var) : Prop :=
  (values v == 0)%Q ∨ (values v == 1)%Q.

Definition variables (p : LpProblem) : list var :=
  (objective p).*2 ++ (nc ← constraints p; (lhs nc.2).*2).

Definition feasible (values : var → Q) (p : LpProblem) : Prop :=
  (∀ v, v ∈ variables p → binary values v) ∧
  (∀ n c, (n, c) ∈ constraints p → holds values c).

Definition optimal (values : var → Q) (p : LpProblem) : Prop :=
  feasible values p ∧
  ∀ values', feasible values' p →
    (eval values' (objective p) <= eval values (objective p))%Q.

(** The coefficient of a variable in a sum of terms: [lpSum] adds up the
    coefficients of the terms that carry the same variable. *)
Definition coefficient (e : list (Q * var)) (v : var) : Q :=
  Qsum ((filter (λ t, t.2 = v) e).*1).

(** Adding a list of named constraints one after the other. *)
Definition add_all (cs : list (cname * LpConstraint)) : action :=
  for_each cs (λ nc, add_constraint nc.1 nc.2).

(** [adds a ok cs]: the action [a] succeeds exactly when [ok] holds and
    the constraints [cs] can be added, and then it has added them. *)
Definition adds (a : action) (ok : Prop) (cs : list (cname * LpConstraint)) : Prop :=
  ∀ p p', a p = Ok p' ↔ ok ∧ add_all cs p = Ok p'.

(** ** The endpoint *)

Section Endpoint.

(** Python's reading of a string as a float literal ([float(s)]); [None]
    is the [ValueError] raised on a string that is no such literal. *)
Variable float_of_string : string → option pyfloat.

(** Whether [print] can write a text to the server's standard output. *)
Variable stdout_accepts : string → bool.

(** [float(v)] *)
Definition py_float (v : pyval) : result pyfloat :=
  match v with
  | JInt z => float_of_int z
  | JFloat f => Ok f
  | JStr s =>
      match float_of_string s with
      | Some f => Ok f
      | None => Raise ValueError
      end
  | JBool b => Ok (FFinite (if b then 1 else 0))
  | JNull | JList | JDict => Raise TypeError
  end.

(** [int(round(float(days_until_expiry_raw)))] *)
Definition days_until_expiry_of (raw : pyval) : result Z :=
  rbind (py_float raw) py_round.

(** ** The external solver *)

(** [LpStatus[prob.status]], with the ['Feasible'] the endpoint also
    tests for. *)
Inductive LpStatus :=
  | NotSolved | Optimal | Infeasible | Unbounded | Undefined | Feasible.

#[global] Instance LpStatus_eq_dec : EqDecision LpStatus.
Proof. solve_decision. Defined.

(** [status_code in ['Optimal', 'Feasible']] *)
Definition status_ok (st : LpStatus) : bool :=
  match st with
  | Optimal | Feasible => true
  | _ => false
  end.

(** [prob.solve()] followed by the reading of the status and of the
    variables' values: the external solver, which may raise. *)
Variable solve : LpProblem → result (LpStatus * (var → Q)).

(** ** Model construction *)

Section Model.

Variable inventory : gmap string item_data.
Variable recipes : list recipe.
Variable meals : list string.

Definition expiry_weight_of (data : item_data) : Q :=
  match data with
  | ItemDict _ w _ => default 1%Q w
  | _ => 1%Q
  end.

(** The inner loop over [r.get('ingredients', {}).items()]. *)
Definition recipe_value (r : recipe) : Q :=
  fold_left
    (λ acc '(item_name, amount_needed),
       match inventory !! item_name with
       | Some data => (acc + expiry_weight_of data * amount_needed)%Q
       | None => acc
       end)
    (map_to_list (ingredients r)) 0%Q.

Definition base_slot_fill_bonus : Q := 10000%Q.

(** One entry of [objective_terms]: coefficient and variable. *)
Definition objective_term (days d : nat) (m : string) (r : recipe) : Q * var :=
  let recipe_value_scaled := (recipe_value r * 100)%Q in
  let day_priority_multiplier := ((Z.of_nat days - Z.of_nat d + 1) ^ 2)%Z in
  let slot_bonus := (base_slot_fill_bonus * inject_Z day_priority_multiplier)%Q in
  ((recipe_value_scaled + slot_bonus)%Q, (d, m, recipe_id r)).

Definition objective_terms (days : nat) : list (Q * var) :=
  d ← seq 0 days; m ← meals; r ← recipes; [objective_term days d m r].

(** Constraint 1 *)
Definition add_at_most_one (days : nat) : action :=
  for_each (seq 0 days) (λ d,
    for_each meals (λ m,
      add_constraint (AtMostOneRecipePerMeal d m)
        {| lhs := (λ r, (1%Q, (d, m, recipe_id r))) <$> recipes;
           csense := LE; rhs := 1%Q |})).

(** Constraint 1b *)
Definition add_no_duplicate (days : nat) : action :=
  for_each (seq 0 days) (λ d,
    for_each recipes (λ r,
      add_constraint (NoDuplicateRecipe d (recipe_id r))
        {| lhs := (λ m, (1%Q, (d, m, recipe_id r))) <$> meals;
           csense := LE; rhs := 1%Q |})).

Definition available_qty (data : item_data) : Q :=
  match data with
  | ItemDict q _ _ => default 0%Q q
  | ItemNumber q => q
  | ItemOther => 0%Q
  end.

Definition total_usage (days : nat) (item_name : string) : list (Q * var) :=
  d ← seq 0 days; m ← meals; r ← recipes;
  [(default 0%Q (ingredients r !! item_name), (d, m, recipe_id r))].

(** The three nested loops of constraint 2b over the days of [ds]. *)
Definition forbid_item (tier : nat) (item_name : string) (ds : list nat) : action :=
  for_each ds (λ d,
    for_each meals (λ m,
      for_each recipes (λ r,
        if decide (is_Some (ingredients r !! item_name))
        then add_constraint (ExpiredItem tier item_name d m (recipe_id r))
               {| lhs := [(1%Q, (d, m, recipe_id r))];
                  csense := EQ; rhs := 0%Q |}
        else skip))).

(** The [print] of the [except] branch writes the item name and, when it
    is a string, the raw value as they are. *)
Definition warning_printable (item_name : string) (raw : pyval) : bool :=
  stdout_accepts item_name &&
  match raw with
  | JStr s => stdout_accepts s
  | _ => true
  end.

(** Constraint 2b with its [try/except]. The conversion is the only
    statement of the [try] block that can raise [ValueError] or
    [TypeError], and it runs before any constraint is added; every other
    exception leaves the block, and so does one raised by the handler's
    [print]. *)
Definition add_expiry (tier : nat) (days : nat) (item_name : string)
    (data : item_data) : action :=
  match data with
  | ItemDict _ _ (Some days_until_expiry_raw) =>
      match days_until_expiry_of days_until_expiry_raw with
      | Ok days_until_expiry =>
          if (days_until_expiry <=? 0)%Z then
            forbid_item tier item_name (seq 0 days)
          else if (days_until_expiry <? Z.of_nat days)%Z then
            forbid_item tier item_name
              (seq (Z.to_nat days_until_expiry) (days - Z.to_nat days_until_expiry))
          else skip
      | Raise ValueError | Raise TypeError =>
          if warning_printable item_name days_until_expiry_raw then skip
          else λ _, Raise UnicodeEncodeError
      | Raise e => λ _, Raise e
      end
  | _ => skip
  end.

(** Constraint 2 and 2b, item by item. *)
Definition add_inventory (tier : nat) (days : nat) : action :=
  for_each (map_to_list inventory) (λ '(item_name, data),
    add_constraint (InventoryLimit item_name)
      {| lhs := total_usage days item_name; csense := LE;
         rhs := available_qty data |} >>
    add_expiry tier days item_name data).

(** Constraint 3 *)
Definition add_no_consecutive (days : nat) : action :=
  for_each (seq 0 (days - 1)) (λ d,
    for_each meals (λ m,
      for_each recipes (λ r,
        add_constraint (NoConsecutive d m (recipe_id r))
          {| lhs := [(1%Q, (d, m, recipe_id r)); (1%Q, (S d, m, recipe_id r))];
             csense := LE; rhs := 1%Q |}))).

(** [prob]: the full model. *)
Definition build_prob (days : nat) : result LpProblem :=
  (set_objective (objective_terms days) >>
   add_at_most_one days >>
   add_no_duplicate days >>
   add_inventory 1 days >>
   add_no_consecutive days) empty_problem.

(** [prob2]: rebuilt without constraint 3, with the objective terms of the
    full model. *)
Definition build_prob2 (days : nat) : result LpProblem :=
  (set_objective (objective_terms days) >>
   add_at_most_one days >>
   add_no_duplicate days >>
   add_inventory 2 days) empty_problem.

(** [prob3]: rebuilt over [reduced_days]. *)
Definition build_prob3 (reduced_days : nat) : result LpProblem :=
  (set_objective (objective_terms reduced_days) >>
   add_at_most_one reduced_days >>
   add_no_duplicate reduced_days >>
   add_inventory 3 reduced_days) empty_problem.

(** ** The relaxation pipeline and the extraction *)

Record meal_entry := { meal_type : string; recipeId : Z }.
Record day_entry := { day : string; day_meals : list meal_entry }.

Inductive response :=
  | Solved (status : LpStatus) (schedule : list day_entry)
  | NoSolution (status : LpStatus)
  | BadRequest
  | ServerError.

(** The loop [for r in recipes] of the extraction, with its [break]. *)
Fixpoint select_recipe (values : var → Q) (d : nat) (m : string)
    (rs : list recipe) (acc : list meal_entry) : list meal_entry :=
  match rs with
  | [] => acc
  | r :: rs =>
      if Qeq_bool (values (d, m, recipe_id r)) 1
      then acc ++ [{| meal_type := m; recipeId := recipe_id r |}]
      else select_recipe values d m rs acc
  end.

Definition extract_day (values : var → Q) (d : nat) : list meal_entry :=
  fold_left (λ acc m, select_recipe values d m recipes acc) meals [].

Definition day_label (d : nat) : string := "Day " +:+ pretty (d + 1).

Definition extract_schedule (values : var → Q) (days : nat) : list day_entry :=
  fold_left
    (λ schedule d,
       let dm := extract_day values d in
       if (0 <? length dm)%nat
       then schedule ++ [{| day := day_label d; day_meals := dm |}]
       else schedule)
    (seq 0 days) [].

(** The loop [for reduced_days in range(days - 1, 0, -1)]; [log] records
    the problems handed to the solver so far. *)
Fixpoint shrink (horizons : list nat) (log : list LpProblem)
    : result (option (LpStatus * (var → Q) * nat)) * list LpProblem :=
  match horizons with
  | [] => (Ok None, log)
  | reduced_days :: horizons =>
      match build_prob3 reduced_days with
      | Raise e => (Raise e, log)
      | Ok prob3 =>
          match solve prob3 with
          | Raise e => (Raise e, log ++ [prob3])
          | Ok (test_status, values) =>
              if status_ok test_status
              then (Ok (Some (test_status, values, reduced_days)),
                    log ++ [prob3])
              else shrink horizons (log ++ [prob3])
          end
      end
  end.

(** Lines 199-342: the status, the values and the horizon the extraction
    will see, and the log of the solver calls. *)
Definition relax (days : nat)
    : result (LpStatus * (var → Q) * nat) * list LpProblem :=
  match build_prob days with
  | Raise e => (Raise e, [])
  | Ok prob =>
      match solve prob with
      | Raise e => (Raise e, [prob])
      | Ok (status_code, values) =>
          if status_ok status_code
          then (Ok (status_code, values, days), [prob])
          else
            match build_prob2 days with
            | Raise e => (Raise e, [prob])
            | Ok prob2 =>
                match solve prob2 with
                | Raise e => (Raise e, [prob; prob2])
                | Ok (status_code, values) =>
                    if status_ok status_code
                    then (Ok (status_code, values, days), [prob; prob2])
                    else
                      match shrink (rev (seq 1 (days - 1))) [prob; prob2] with
                      | (Raise e, log) => (Raise e, log)
                      | (Ok (Some found), log) => (Ok found, log)
                      | (Ok None, log) => (Ok (status_code, values, days), log)
                      end
                end
            end
      end
  end.

(** Lines 344-374. *)
Definition respond (outcome : LpStatus * (var → Q) * nat) : response :=
  let '(status_code, values, days) := outcome in
  if status_ok status_code
  then Solved status_code (extract_schedule values days)
  else NoSolution status_code.

End Model.

Record request := {
  inventory : gmap string item_data;
  recipes : list recipe;
  days : nat;
  meals : list string
}.

(** The endpoint: validation, model construction and solving, response.
    The second component is the list of the problems handed to the solver,
    in call order. *)
Definition solve_meal_plan (req : request) : response * list LpProblem :=
  if bool_decide (size (inventory req) = 0) then (BadRequest, [])
  else if bool_decide (length (recipes req) = 0) then (BadRequest, [])
  else if bool_decide (length (meals req) = 0) then (BadRequest, [])
  else if (days req <? 1)%nat || (7 <? days req)%nat then (BadRequest, [])
  else
    match relax (inventory req) (recipes req) (meals req) (days req) with
    | (Ok outcome, log) => (respond (recipes req) (meals req) outcome, log)
    | (Raise _, log) => (ServerError, log)
    end.

End Endpoint.

(** ** Declarative view of the models

    The constraint families as lists, the models as values, and the
    relaxation strategy as an ordered list of attempts: what the spec
    describes, to be compared with the construction above. *)

Section Families.

Variable float_of_string : string → option pyfloat.
Variable stdout_accepts : string → bool.
Variable inventory : gmap string item_data.
Variable recipes : list recipe.
Variable meals : list string.

Definition one (v : var) : Q * var := (1%Q, v).

Definition at_most (e : list (Q * var)) (bound : Q) : LpConstraint :=
  {| lhs := e; csense := LE; rhs := bound |}.

Definition force_zero (v : var) : LpConstraint :=
  {| lhs := [one v]; csense := EQ; rhs := 0%Q |}.

Definition exclusivity (days : nat) : list (cname * LpConstraint) :=
  d ← seq 0 days; m ← meals;
  [(AtMostOneRecipePerMeal d m,
    at_most ((λ r, one (d, m, recipe_id r)) <$> recipes) 1%Q)].

Definition no_duplicate_per_day (days : nat) : list (cname * LpConstraint) :=
  d ← seq 0 days; r ← recipes;
  [(NoDuplicateRecipe d (recipe_id r),
    at_most ((λ m, one (d, m, recipe_id r)) <$> meals) 1%Q)].

Definition references (r : recipe) (item_name : string) : Prop :=
  is_Some (ingredients r !! item_name).

Definition forbidden (tier : nat) (item_name : string) (ds : list nat)
    : list (cname * LpConstraint) :=
  d ← ds; m ← meals; r ← recipes;
  if decide (references r item_name)
  then [(ExpiredItem tier item_name d m (recipe_id r),
         force_zero (d, m, recipe_id r))]
  else [].

(** What the [try] block of constraint 2b does with an item. *)
Inductive expiry_handling :=
  | NoExpiryField
  | Cutoff (k : Z)
  | SkippedWithWarning (e : exn)
  | Escapes (e : exn).

Definition handle_expiry (item_name : string) (data : item_data)
    : expiry_handling :=
  match data with
  | ItemDict _ _ (Some raw) =>
      match days_until_expiry_of float_of_string raw with
      | Ok k => Cutoff k
      | Raise ValueError =>
          if warning_printable stdout_accepts item_name raw
          then SkippedWithWarning ValueError else Escapes UnicodeEncodeError
      | Raise TypeError =>
          if warning_printable stdout_accepts item_name raw
          then SkippedWithWarning TypeError else Escapes UnicodeEncodeError
      | Raise e => Escapes e
      end
  | _ => NoExpiryField
  end.

(** The day indices an item with cutoff [k] is forbidden on. *)
Definition cutoff_days (days : nat) (k : Z) : list nat :=
  if (k <=? 0)%Z then seq 0 days
  else if (k <? Z.of_nat days)%Z then seq (Z.to_nat k) (days - Z.to_nat k)
  else [].

Definition expiry_cutoff (tier days : nat) (item_name : string)
    (data : item_data) : list (cname * LpConstraint) :=
  match handle_expiry item_name data with
  | Cutoff k => forbidden tier item_name (cutoff_days days k)
  | _ => []
  end.

Definition inventory_capacity (tier days : nat) : list (cname * LpConstraint) :=
  '(item_name, data) ← map_to_list inventory;
  (InventoryLimit item_name,
   at_most (total_usage recipes meals days item_name) (available_qty data))
  :: expiry_cutoff tier days item_name data.

Definition anti_repetition (days : nat) : list (cname * LpConstraint) :=
  d ← seq 0 (days - 1); m ← meals; r ← recipes;
  [(NoConsecutive d m (recipe_id r),
    at_most [one (d, m, recipe_id r); one (S d, m, recipe_id r)] 1%Q)].

(** No handling of a [days_until_expiry] value raises past the [try]
    statement. *)
Definition conversions_pass : Prop :=
  ∀ item_name data, inventory !! item_name = Some data →
    ∀ e, handle_expiry item_name data ≠ Escapes e.

(** [build(inventory, recipes, days, meals, includeAntiRepetition)] *)
Definition model (include_anti_repetition : bool) (tier days : nat) : LpProblem :=
  {| objective := objective_terms inventory recipes meals days;
     constraints :=
       exclusivity days ++ no_duplicate_per_day days ++
       inventory_capacity tier days ++
       (if include_anti_repetition then anti_repetition days else []) |}.

(** The models the endpoint can hand to the solver for horizon [days]. *)
Definition built (days : nat) (p : LpProblem) : Prop :=
  build_prob float_of_string stdout_accepts inventory recipes meals days = Ok p ∨
  build_prob2 float_of_string stdout_accepts inventory recipes meals days = Ok p ∨
  build_prob3 float_of_string stdout_accepts inventory recipes meals days = Ok p.

(** The attempts of the relaxation controller, strongest first: the model
    and its horizon. *)
Definition attempts (days : nat) : list (LpProblem * nat) :=
  (model true 1 days, days) ::
  (model false 2 days, days) ::
  ((λ reduced_days, (model false 3 reduced_days, reduced_days)) <$>
     rev (seq 1 (days - 1))).

(** The statuses on which the endpoint answers with a schedule. *)
Definition successful (st : LpStatus) : Prop := st = Optimal ∨ st = Feasible.

(** An attempt ends the pipeline when the solver reports ['Optimal'] or
    ['Feasible'] on its model, or raises. *)
Definition decisive (solve : LpProblem → result (LpStatus * (var → Q)))
    (a : LpProblem * nat) : Prop :=
  match solve a.1 with
  | Ok (st, _) => successful st
  | Raise _ => True
  end.

#[global] Instance decisive_dec solve a : Decision (decisive solve a).
Proof. unfold decisive, successful. destruct (solve a.1) as [[st ?]|]; apply _. Defined.

(** What an attempt leaves for the response when the pipeline ends with
    it. *)
Definition outcome_of (solve : LpProblem → result (LpStatus * (var → Q)))
    (a : LpProblem * nat) : result (LpStatus * (var → Q) * nat) :=
  match solve a.1 with
  | Ok (st, values) => Ok (st, values, a.2)
  | Raise e => Raise e
  end.

(** The recipe value in the spec's words: the sum, over the ingredients
    present in the inventory, of expiry weight times quantity needed. *)
Definition expiryWeight (item_name : string) : Q :=
  match inventory !! item_name with
  | Some (ItemDict _ (Some w) _) => w
  | _ => 1%Q
  end.

Definition recipeValue (r : recipe) : Q :=
  Qsum ((λ '(item_name, needed), (expiryWeight item_name * needed)%Q) <$>
        filter (λ '(item_name, _), is_Some (inventory !! item_name))
               (map_to_list (ingredients r))).

(** The recipe with one ingredient line removed. *)
Definition without_ingredient (item_name : string) (r : recipe) : recipe :=
  {| recipe_id := recipe_id r; title := title r;
     r_ingredients := Some (delete item_name (ingredients r)) |}.

(** The extraction in the spec's words. *)
Definition selected (values : var → Q) (d : nat) (m : string) (r : recipe) : Prop :=
  (values (d, m, recipe_id r) == 1)%Q.

#[global] Instance selected_dec values d m r : Decision (selected values d m r).
Proof. unfold selected. destruct (Qeq_dec (values (d, m, recipe_id r)) 1); [left|right]; done. Defined.

Definition slot_entry (values : var → Q) (d : nat) (m : string) : option meal_entry :=
  (λ ir, {| meal_type := m; recipeId := recipe_id ir.2 |}) <$>
    list_find (selected values d m) recipes.

Definition schedule_of (values : var → Q) (days : nat) : list day_entry :=
  filter (λ e, day_meals e ≠ [])
    ((λ d, {| day := day_label d;
              day_meals := omap (slot_entry values d) meals |}) <$> seq 0 days).

(** The amount of an item that the recipe with a given id requires, and
    the total a schedule consumes. *)
Definition required_amount (item_name : string) (rid : Z) : Q :=
  match list_find (λ r, recipe_id r = rid) recipes with
  | Some (_, r) => default 0%Q (ingredients r !! item_name)
  | None => 0%Q
  end.

Definition consumption (item_name : string) (schedule : list day_entry) : Q :=
  Qsum (e ← schedule; me ← day_meals e;
        [required_amount item_name (recipeId me)]).

End Families.

(** The assignment that selects exactly the (at most two) given
    variables, and the one that selects nothing. *)
Definition two_slots (v1 v2 : var) : var → Q :=
  λ v, if decide (v = v1 ∨ v = v2) then 1%Q else 0%Q.

Definition nothing_selected : var → Q := λ _, 0%Q.

(** A constraint of the expiry family of an item bears on a variable; the
    family forces the variable to 0. *)
Definition expiry_constrained (p : LpProblem) (item_name : string) (v : var) : Prop :=
  ∃ tier c, (ExpiredItem tier item_name v.1.1 v.1.2 v.2, c) ∈ constraints p.

Definition expiry_forces_zero (p : LpProblem) (item_name : string) (v : var) : Prop :=
  ∃ tier, (ExpiredItem tier item_name v.1.1 v.1.2 v.2, force_zero v) ∈ constraints p.

Definition is_anti_repetition (n : cname) : Prop :=
  ∃ d m rid, n = NoConsecutive d m rid.

(** What the validation of the endpoint lets through. *)
Definition valid (req : request) : Prop :=
  size (inventory req) ≠ 0%nat ∧ recipes req ≠ [] ∧ meals req ≠ [] ∧
  (1 ≤ days req ≤ 7)%nat.

(** ** A worked request

    Two eggs, one omelet recipe, two days of breakfast; a solver that
    answers with the first day only; and a table of float literals. *)

(** A standard output in UTF-8: it refuses the texts that hold a
    surrogate, here the bytes ED A0..BF of its generalised encoding. *)
Fixpoint holds_surrogate (s : string) : bool :=
  match s with
  | EmptyString => false
  | String c s' =>
      match s' with
      | String c' _ =>
          ((c =? "237")%char && (160 <=? nat_of_ascii c')%nat) ||
          holds_surrogate s'
      | EmptyString => false
      end
  end.

Definition strict_utf8 (s : string) : bool := negb (holds_surrogate s).

(** The text of the JSON string ["\ud800"]. *)
Definition lone_surrogate : string :=
  String "237" (String "160" (String "128" EmptyString)).

(** The double nearest to 0.4. *)
Definition float_0_4 : Q := 3602879701896397 # 9007199254740992.

Definition float_literals (s : string) : option pyfloat :=
  if decide (s = "0.4") then Some (FFinite float_0_4)
  else if decide (s = "2") then Some (FFinite 2)
  else if decide (s = "nan") then Some FNaN
  else if decide (s = "inf") then Some (FInf false)
  else None.

Definition eggs : item_data := ItemDict (Some 2%Q) (Some 5%Q) None.

Definition omelet : recipe :=
  {| recipe_id := 0; title := "Omelet";
     r_ingredients := Some {[ "eggs" := 1%Q ]} |}.

Definition omelet_request : request :=
  {| inventory := {[ "eggs" := eggs ]};
     recipes := [omelet];
     days := 2;
     meals := ["Breakfast"] |}.

Definition omelet_model : LpProblem :=
  model float_literals strict_utf8 (inventory omelet_request) (recipes omelet_request)
        (meals omelet_request) true 1 2.

Definition first_day_only (v : var) : Q :=
  if decide (v = (0%nat, "Breakfast", 0%Z)) then 1%Q else 0%Q.

Definition first_day_solver (p : LpProblem) : result (LpStatus * (var → Q)) :=
  Ok (Optimal, first_day_only).

Definition breakfast_omelet : meal_entry :=
  {| meal_type := "Breakfast"; recipeId := 0 |}.

Definition first_day_schedule : list day_entry :=
  [{| day := "Day 1"; day_meals := [breakfast_omelet] |}].

Definition both_days_schedule : list day_entry :=
  [{| day := "Day 1"; day_meals := [breakfast_omelet] |};
   {| day := "Day 2"; day_meals := [breakfast_omelet] |}].

(** The solver answers ['Optimal'] on a model, with optimal values. *)
Definition solves_optimally (solve : LpProblem → result (LpStatus * (var → Q)))
    (p : LpProblem) : Prop :=
  ∃ values, solve p = Ok (Optimal, values) ∧ optimal values p.

(** A solver that never succeeds: it reports ['Undefined'] on the models
    that span two days and ['Infeasible'] on the others. *)
Definition stalling_solver (p : LpProblem) : result (LpStatus * (var → Q)) :=
  if decide (AtMostOneRecipePerMeal 1 "Breakfast" ∈ names p)
  then Ok (Undefined, nothing_selected)
  else Ok (Infeasible, nothing_selected).

(** A solver that raises on the models without the consecutive-day
    family and reports ['Infeasible'] on the others. *)
Definition failing_solver (p : LpProblem) : result (LpStatus * (var → Q)) :=
  if decide (NoConsecutive 0 "Breakfast" 0 ∈ names p)
  then Ok (Infeasible, nothing_selected)
  else Raise PulpSolverError.

(** A request with two recipes and a solver that sets every variable to 1,
    against the exclusivity constraint. *)
Definition scramble : recipe :=
  {| recipe_id := 1; title := "Scramble";
     r_ingredients := Some {[ "eggs" := 2%Q ]} |}.

Definition two_recipe_request : request :=
  {| inventory := {[ "eggs" := eggs ]};
     recipes := [omelet; scramble];
     days := 1;
     meals := ["Breakfast"] |}.

Definition all_ones_solver (p : LpProblem) : result (LpStatus * (var → Q)) :=
  Ok (Optimal, λ _, 1%Q).

(** A day of two meals: a dozen eggs, the omelet at breakfast and the
    scramble at lunch. *)
Definition carton : item_data := ItemDict (Some 12%Q) None None.

Definition two_meal_model : LpProblem :=
  model float_literals strict_utf8 {[ "eggs" := carton ]} [omelet; scramble]
        ["Breakfast"; "Lunch"] true 1 1.

Definition two_meal_values : var → Q :=
  two_slots (0%nat, "Breakfast", 0%Z) (0%nat, "Lunch", 1%Z).

(** Milk that expires after one day, and a porridge that needs it. *)
Definition milk : item_data := ItemDict (Some 3%Q) None (Some (JInt 1)).

Definition porridge : recipe :=
  {| recipe_id := 7; title := "Porridge";
     r_ingredients := Some {[ "milk" := 1%Q ]} |}.

Definition porridge_model : LpProblem :=
  model float_literals strict_utf8 {[ "milk" := milk ]} [porridge] ["Breakfast"] true 1 2.

(** A request whose only item carries an unreadable expiry value. *)
Definition unreadable_request : request :=
  {| inventory := {[ "milk" := ItemDict (Some 3%Q) None (Some (JStr "soon")) ]};
     recipes := [porridge];
     days := 1;
     meals := ["Breakfast"] |}.

(** Requests whose only item carries the expiry value ["0.4"], and a
    string with a lone surrogate. *)
Definition rounded_request : request :=
  {| inventory := {[ "milk" := ItemDict (Some 3%Q) None (Some (JStr "0.4")) ]};
     recipes := [porridge];
     days := 2;
     meals := ["Breakfast"] |}.

Definition surrogate_request : request :=
  {| inventory := {[ "milk" := ItemDict (Some 3%Q) None
                                 (Some (JStr lone_surrogate)) ]};
     recipes := [porridge];
     days := 1;
     meals := ["Breakfast"] |}.

(** Requests the endpoint turns away or fails on: a horizon of eight
    days, clashing meal types, an infinite expiry value. *)
Definition eight_day_request : request :=
  {| inventory := {[ "eggs" := eggs ]};
     recipes := [omelet];
     days := 8;
     meals := ["Breakfast"] |}.

(** Two meal types that differ as texts and agree once sanitised. *)
Definition clashing_meal_request : request :=
  {| inventory := {[ "eggs" := eggs ]};
     recipes := [omelet];
     days := 1;
     meals := ["Late lunch"; "Late-lunch"] |}.

Definition infinite_expiry_request : request :=
  {| inventory := {[ "milk" := ItemDict (Some 3%Q) None
                                 (Some (JFloat (FInf false))) ]};
     recipes := [porridge];
     days := 1;
     meals := ["Breakfast"] |}.

(** * Properties *)

(** ** Model construction as a list of constraints *)

Lemma rbind_Ok {A B} (r : result A) (k : A → result B) b :
  rbind r k = Ok b ↔ ∃ a, r = Ok a ∧ k a = Ok b.
Proof.
  destruct r as [a|e]; simpl.
  - split; [eauto|]. by intros (a' & [= <-] & ?).
  - split; [done|]. by intros (a' & ? & _).
Qed.

Lemma add_all_nil p : add_all [] p = Ok p.
Proof. done. Qed.

Lemma add_all_cons n c cs p :
  add_all ((n, c) :: cs) p = rbind (add_constraint n c p) (add_all cs).
Proof. done. Qed.

Lemma add_all_app cs1 cs2 p :
  add_all (cs1 ++ cs2) p = rbind (add_all cs1 p) (add_all cs2).
Proof.
  revert p. induction cs1 as [|[n c] cs1 IH]; intros p; [done|].
  rewrite <- app_comm_cons, !add_all_cons.
  destruct (add_constraint n c p) as [p1|e]; simpl; [apply IH|done].
Qed.

Lemma add_all_Ok cs p p' :
  add_all cs p = Ok p' ↔
  NoDup (render <$> cs.*1) ∧
  (∀ n, n ∈ cs.*1 → render n ∉ render <$> names p) ∧
  p' = {| objective := objective p; constraints := constraints p ++ cs |}.
Proof.
  revert p. induction cs as [|[n c] cs IH]; intros p.
  - rewrite add_all_nil, app_nil_r. split.
    + intros [= <-]. split_and!; [constructor|by inversion 1|by destruct p].
    + intros (_ & _ & ->). by destruct p.
  - rewrite add_all_cons, rbind_Ok. unfold add_constraint at 1.
    rewrite !fmap_cons, NoDup_cons. simpl. split.
    + intros (p1 & Hadd & Hrest). case_decide as Hn; [done|].
      injection Hadd as <-. apply IH in Hrest as (Hnd & Hfresh & ->).
      unfold names in *. simpl in *. split_and!.
      * intros (n' & Heq & Hin)%list_elem_of_fmap. apply (Hfresh n' Hin).
        rewrite !fmap_app, <- Heq. set_solver.
      * done.
      * intros n' [->|Hin]%elem_of_cons; [done|].
        intros Hp. apply (Hfresh n' Hin). rewrite !fmap_app. set_solver.
      * by rewrite <- app_assoc.
    + intros ([Hn Hnd] & Hfresh & ->).
      eexists. split.
      * rewrite decide_False; [done|]. apply Hfresh. set_solver.
      * apply IH. unfold names in *. simpl.
        split_and!; [done| |by rewrite <- app_assoc].
        intros n' Hin. rewrite !fmap_app. simpl.
        intros [Hp|Hp%list_elem_of_singleton]%elem_of_app.
        -- apply (Hfresh n'); [set_solver|done].
        -- apply Hn. rewrite <- Hp. by apply list_elem_of_fmap_2.
Qed.

Lemma adds_iff a ok ok' cs : (ok ↔ ok') → adds a ok cs → adds a ok' cs.
Proof. intros Hok Ha p p'. rewrite (Ha p p'). tauto. Qed.

Lemma adds_skip : adds skip True [].
Proof. intros p p'. unfold skip. rewrite add_all_nil. tauto. Qed.

Lemma adds_raise e : adds (λ _, Raise e) False [].
Proof. intros p p'. split; [done|tauto]. Qed.

Lemma adds_add_constraint n c : adds (add_constraint n c) True [(n, c)].
Proof.
  intros p p'. rewrite add_all_cons.
  destruct (add_constraint n c p); simpl; rewrite ?add_all_nil; tauto.
Qed.

Lemma adds_then a b ok1 ok2 cs1 cs2 :
  adds a ok1 cs1 → adds b ok2 cs2 → adds (a >> b) (ok1 ∧ ok2) (cs1 ++ cs2).
Proof.
  intros Ha Hb p p'. unfold then_. rewrite add_all_app, !rbind_Ok. split.
  - intros (p1 & H1 & H2). apply Ha in H1 as [? H1]. apply Hb in H2 as [? H2].
    eauto.
  - intros ([? ?] & p1 & H1 & H2). exists p1. split; [by apply Ha|by apply Hb].
Qed.

Lemma adds_for_each {A} (l : list A) (body : A → action) (ok : A → Prop) g :
  (∀ x, x ∈ l → adds (body x) (ok x) (g x)) →
  adds (for_each l body) (∀ x, x ∈ l → ok x) (l ≫= g).
Proof.
  induction l as [|x l IH]; intros Hbody; simpl.
  - eapply adds_iff, adds_skip. split; [|done]. by intros _ x ?%elem_of_nil.
  - eapply adds_iff; [|apply adds_then; [apply Hbody; left|apply IH]].
    + split.
      * intros [Hx Hl] y [->|Hy]%elem_of_cons; auto.
      * intros H. split; [apply H; left|]. intros y Hy. apply H. by right.
    + intros y Hy. apply Hbody. by right.
Qed.

Lemma adds_for_each_True {A} (l : list A) (body : A → action) g :
  (∀ x, x ∈ l → adds (body x) True (g x)) →
  adds (for_each l body) True (l ≫= g).
Proof.
  intros H. eapply adds_iff; [|apply (adds_for_each l body (λ _, True) g H)].
  simpl. tauto.
Qed.

Section Construction.

Context (float_of_string : string → option pyfloat).
Context (stdout_accepts : string → bool).
Context (inventory : gmap string item_data).
Context (recipes : list recipe) (meals : list string).

Lemma adds_at_most_one days :
  adds (add_at_most_one recipes meals days) True (exclusivity recipes meals days).
Proof.
  apply adds_for_each_True; intros d _.
  apply adds_for_each_True; intros m _. apply adds_add_constraint.
Qed.

Lemma adds_no_duplicate days :
  adds (add_no_duplicate recipes meals days) True
       (no_duplicate_per_day recipes meals days).
Proof.
  apply adds_for_each_True; intros d _.
  apply adds_for_each_True; intros r _. apply adds_add_constraint.
Qed.

Lemma adds_no_consecutive days :
  adds (add_no_consecutive recipes meals days) True
       (anti_repetition recipes meals days).
Proof.
  apply adds_for_each_True; intros d _.
  apply adds_for_each_True; intros m _.
  apply adds_for_each_True; intros r _. apply adds_add_constraint.
Qed.

Lemma adds_forbid_item tier item_name ds :
  adds (forbid_item recipes meals tier item_name ds) True
       (forbidden recipes meals tier item_name ds).
Proof.
  apply adds_for_each_True; intros d _.
  apply adds_for_each_True; intros m _.
  apply adds_for_each_True; intros r _.
  unfold references. case_decide; [apply adds_add_constraint|apply adds_skip].
Qed.

Lemma adds_add_expiry tier days item_name data :
  adds (add_expiry float_of_string stdout_accepts recipes meals tier days item_name data)
       (∀ e, handle_expiry float_of_string stdout_accepts item_name data ≠ Escapes e)
       (expiry_cutoff float_of_string stdout_accepts recipes meals tier days item_name data).
Proof.
  unfold add_expiry, expiry_cutoff, handle_expiry.
  destruct data as [q w [raw|]| |];
    try (apply (adds_iff _ True); [split; [intros _ e; discriminate|done]|];
         apply adds_skip).
  destruct (days_until_expiry_of float_of_string raw) as [k|[]];
    try destruct (warning_printable stdout_accepts item_name raw);
    try (apply (adds_iff _ True); [split; [intros _ e; discriminate|done]|];
         first [apply adds_skip|idtac]);
    try (apply (adds_iff _ False); [|apply adds_raise];
         split; [done|]; intros H; by eapply H).
  all: unfold cutoff_days.
  all: destruct (k <=? 0)%Z; [apply adds_forbid_item|].
  all: destruct (k <? Z.of_nat days)%Z; [apply adds_forbid_item|apply adds_skip].
Qed.

Lemma adds_add_inventory tier days :
  adds (add_inventory float_of_string stdout_accepts inventory recipes meals tier days)
       (conversions_pass float_of_string stdout_accepts inventory)
       (inventory_capacity float_of_string stdout_accepts inventory recipes meals tier days).
Proof.
  unfold add_inventory, inventory_capacity.
  apply (adds_iff _ (∀ x : string * item_data, x ∈ map_to_list inventory →
                       ∀ e, handle_expiry float_of_string stdout_accepts x.1 x.2 ≠ Escapes e)).
  - unfold conversions_pass. split.
    + intros H item_name data Hin. apply (H (item_name, data)).
      by apply elem_of_map_to_list.
    + intros H [item_name data] Hin. apply (H item_name).
      by apply elem_of_map_to_list.
  - apply (adds_for_each (map_to_list inventory) _
             (λ x, ∀ e, handle_expiry float_of_string stdout_accepts x.1 x.2 ≠ Escapes e)).
    intros [item_name data] _. simpl.
    apply (adds_iff _ (True ∧ ∀ e, handle_expiry float_of_string stdout_accepts item_name data
                                   ≠ Escapes e));
      [tauto|].
    apply (adds_then _ _ True _ [_]);
      [apply adds_add_constraint|apply adds_add_expiry].
Qed.

Lemma run_build (terms : list (Q * var)) a ok cs p :
  adds a ok cs →
  (set_objective terms >> a) empty_problem = Ok p ↔
  ok ∧ NoDup (render <$> cs.*1) ∧
  p = {| objective := terms; constraints := cs |}.
Proof.
  intros Ha. unfold then_, set_objective. simpl. rewrite (Ha _ p), add_all_Ok.
  simpl. split.
  - intros (? & ? & _ & ->). done.
  - intros (? & ? & ->). split_and!; try done. intros n _. unfold names. simpl.
    apply not_elem_of_nil.
Qed.

Lemma build_prob_Ok days p :
  build_prob float_of_string stdout_accepts inventory recipes meals days = Ok p ↔
  conversions_pass float_of_string stdout_accepts inventory ∧
  NoDup (render <$> names (model float_of_string stdout_accepts inventory recipes
                                 meals true 1 days)) ∧
  p = model float_of_string stdout_accepts inventory recipes meals true 1 days.
Proof.
  unfold build_prob. erewrite run_build.
  2: { apply adds_then; [apply adds_at_most_one|].
       apply adds_then; [apply adds_no_duplicate|].
       apply adds_then; [apply adds_add_inventory|apply adds_no_consecutive]. }
  unfold model, names. simpl. tauto.
Qed.

Lemma build_prob2_Ok days p :
  build_prob2 float_of_string stdout_accepts inventory recipes meals days = Ok p ↔
  conversions_pass float_of_string stdout_accepts inventory ∧
  NoDup (render <$> names (model float_of_string stdout_accepts inventory recipes
                                 meals false 2 days)) ∧
  p = model float_of_string stdout_accepts inventory recipes meals false 2 days.
Proof.
  unfold build_prob2. erewrite run_build.
  2: { apply adds_then; [apply adds_at_most_one|].
       apply adds_then; [apply adds_no_duplicate|apply adds_add_inventory]. }
  unfold model, names. simpl. rewrite !app_nil_r. tauto.
Qed.

Lemma build_prob3_Ok reduced_days p :
  build_prob3 float_of_string stdout_accepts inventory recipes meals reduced_days = Ok p ↔
  conversions_pass float_of_string stdout_accepts inventory ∧
  NoDup (render <$> names (model float_of_string stdout_accepts inventory recipes
                                 meals false 3 reduced_days)) ∧
  p = model float_of_string stdout_accepts inventory recipes meals false 3 reduced_days.
Proof.
  unfold build_prob3. erewrite run_build.
  2: { apply adds_then; [apply adds_at_most_one|].
       apply adds_then; [apply adds_no_duplicate|apply adds_add_inventory]. }
  unfold model, names. simpl. rewrite !app_nil_r. tauto.
Qed.

End Construction.

(** ** Membership in the constraint families *)

Lemma bind_singleton {A B} (f : A → B) (l : list A) :
  (x ← l; [f x]) = f <$> l.
Proof. induction l as [|x l IH]; csimpl; [done|]. by rewrite IH. Qed.

Lemma NoDup_fmap_eq {A B} (f : A → B) (l : list A) x y :
  NoDup (f <$> l) → x ∈ l → y ∈ l → f x = f y → x = y.
Proof.
  induction l as [|z l IH]; [by intros _ ?%elem_of_nil|].
  rewrite fmap_cons, NoDup_cons. intros [Hz Hnd] Hx Hy Hf.
  apply elem_of_cons in Hx as [->|Hx]; apply elem_of_cons in Hy as [->|Hy].
  - done.
  - destruct Hz. rewrite Hf. by apply list_elem_of_fmap_2.
  - destruct Hz. rewrite <- Hf. by apply list_elem_of_fmap_2.
  - by apply IH.
Qed.

Lemma elem_of_cutoff_days days k d :
  d ∈ cutoff_days days k ↔ (d < days)%nat ∧ (k ≤ Z.of_nat d)%Z.
Proof.
  unfold cutoff_days. repeat case_match; rewrite ?elem_of_seq, ?elem_of_nil; lia.
Qed.

Section Membership.

Context (float_of_string : string → option pyfloat).
Context (stdout_accepts : string → bool).
Context (inventory : gmap string item_data).
Context (recipes : list recipe) (meals : list string).

Lemma elem_of_exclusivity days n c :
  (n, c) ∈ exclusivity recipes meals days ↔
  ∃ d m, (d < days)%nat ∧ m ∈ meals ∧ n = AtMostOneRecipePerMeal d m ∧
         c = at_most ((λ r, one (d, m, recipe_id r)) <$> recipes) 1%Q.
Proof.
  unfold exclusivity. split.
  - intros (d & (m & Hnc%list_elem_of_singleton & Hm)%list_elem_of_bind
              & Hd%elem_of_seq)%list_elem_of_bind.
    simplify_eq. exists d, m. split_and!; [lia|done..].
  - intros (d & m & Hd & Hm & -> & ->). apply list_elem_of_bind.
    exists d. split; [|apply elem_of_seq; lia]. apply list_elem_of_bind.
    exists m. split; [by apply list_elem_of_singleton|done].
Qed.

Lemma elem_of_no_duplicate_per_day days n c :
  (n, c) ∈ no_duplicate_per_day recipes meals days ↔
  ∃ d r, (d < days)%nat ∧ r ∈ recipes ∧ n = NoDuplicateRecipe d (recipe_id r) ∧
         c = at_most ((λ m, one (d, m, recipe_id r)) <$> meals) 1%Q.
Proof.
  unfold no_duplicate_per_day. split.
  - intros (d & (r & Hnc%list_elem_of_singleton & Hr)%list_elem_of_bind
              & Hd%elem_of_seq)%list_elem_of_bind.
    simplify_eq. exists d, r. split_and!; [lia|done..].
  - intros (d & r & Hd & Hr & -> & ->). apply list_elem_of_bind.
    exists d. split; [|apply elem_of_seq; lia]. apply list_elem_of_bind.
    exists r. split; [by apply list_elem_of_singleton|done].
Qed.

Lemma elem_of_anti_repetition days n c :
  (n, c) ∈ anti_repetition recipes meals days ↔
  ∃ d m r, (S d < days)%nat ∧ m ∈ meals ∧ r ∈ recipes ∧
           n = NoConsecutive d m (recipe_id r) ∧
           c = at_most [one (d, m, recipe_id r); one (S d, m, recipe_id r)] 1%Q.
Proof.
  unfold anti_repetition. split.
  - intros (d & (m & (r & Hnc%list_elem_of_singleton & Hr)%list_elem_of_bind
                   & Hm)%list_elem_of_bind & Hd%elem_of_seq)%list_elem_of_bind.
    simplify_eq. exists d, m, r. split_and!; [lia|done..].
  - intros (d & m & r & Hd & Hm & Hr & -> & ->). apply list_elem_of_bind.
    exists d. split; [|apply elem_of_seq; lia]. apply list_elem_of_bind.
    exists m. split; [|done]. apply list_elem_of_bind.
    exists r. split; [by apply list_elem_of_singleton|done].
Qed.

Lemma elem_of_forbidden tier item_name ds n c :
  (n, c) ∈ forbidden recipes meals tier item_name ds ↔
  ∃ d m r, d ∈ ds ∧ m ∈ meals ∧ r ∈ recipes ∧ references r item_name ∧
           n = ExpiredItem tier item_name d m (recipe_id r) ∧
           c = force_zero (d, m, recipe_id r).
Proof.
  unfold forbidden. split.
  - intros (d & (m & (r & Hnc & Hr)%list_elem_of_bind
                   & Hm)%list_elem_of_bind & Hd)%list_elem_of_bind.
    case_decide as Href; [|by apply elem_of_nil in Hnc].
    apply list_elem_of_singleton in Hnc. simplify_eq.
    by exists d, m, r.
  - intros (d & m & r & Hd & Hm & Hr & Href & -> & ->). apply list_elem_of_bind.
    exists d. split; [|done]. apply list_elem_of_bind.
    exists m. split; [|done]. apply list_elem_of_bind. exists r. split; [|done].
    rewrite decide_True by done. by apply list_elem_of_singleton.
Qed.

Lemma elem_of_expiry_cutoff tier days item_name data n c :
  (n, c) ∈ expiry_cutoff float_of_string stdout_accepts recipes meals tier days item_name data ↔
  ∃ k d m r, handle_expiry float_of_string stdout_accepts item_name data = Cutoff k ∧
             (d < days)%nat ∧ (k ≤ Z.of_nat d)%Z ∧
             m ∈ meals ∧ r ∈ recipes ∧ references r item_name ∧
             n = ExpiredItem tier item_name d m (recipe_id r) ∧
             c = force_zero (d, m, recipe_id r).
Proof.
  unfold expiry_cutoff.
  destruct (handle_expiry float_of_string stdout_accepts item_name data) as [|k|e|e];
    try (split; [by intros ?%elem_of_nil|by intros (? & ? & ? & ? & ? & _)]).
  rewrite elem_of_forbidden. split.
  - intros (d & m & r & [? ?]%elem_of_cutoff_days & ? & ? & ? & ? & ?).
    by exists k, d, m, r.
  - intros (k' & d & m & r & [= <-] & ? & ? & ? & ? & ? & ? & ?).
    exists d, m, r. split_and!; try done. by apply elem_of_cutoff_days.
Qed.

Lemma elem_of_inventory_capacity tier days n c :
  (n, c) ∈ inventory_capacity float_of_string stdout_accepts inventory recipes meals tier days ↔
  ∃ item_name data, inventory !! item_name = Some data ∧
    ((n = InventoryLimit item_name ∧
      c = at_most (total_usage recipes meals days item_name) (available_qty data))
     ∨ (n, c) ∈ expiry_cutoff float_of_string stdout_accepts recipes meals tier days item_name data).
Proof.
  unfold inventory_capacity. rewrite list_elem_of_bind. split.
  - intros ([item_name data] & Hin & Hm%elem_of_map_to_list).
    exists item_name, data. split; [done|].
    apply elem_of_cons in Hin as [[= -> ->]|Hin]; auto.
  - intros (item_name & data & Hm & Hcase). exists (item_name, data).
    split; [|by apply elem_of_map_to_list].
    apply elem_of_cons. destruct Hcase as [[-> ->]|Hin]; auto.
Qed.

(** Every constraint of a model belongs to one of the five families. *)
Lemma elem_of_model anti tier days n c :
  (n, c) ∈ constraints (model float_of_string stdout_accepts inventory recipes meals anti tier days) ↔
  (n, c) ∈ exclusivity recipes meals days ∨
  (n, c) ∈ no_duplicate_per_day recipes meals days ∨
  (n, c) ∈ inventory_capacity float_of_string stdout_accepts inventory recipes meals tier days ∨
  (anti = true ∧ (n, c) ∈ anti_repetition recipes meals days).
Proof.
  unfold model. simpl. rewrite !elem_of_app.
  destruct anti; [naive_solver|]. rewrite elem_of_nil. naive_solver.
Qed.

End Membership.

(** ** Constraint names: when PuLP accepts the model *)

Section Names.

Context (float_of_string : string → option pyfloat).
Context (stdout_accepts : string → bool).
Context (inventory : gmap string item_data).
Context (recipes : list recipe) (meals : list string).

Hypothesis meals_distinct : NoDup meals.
Hypothesis ids_distinct : NoDup (recipe_id <$> recipes).

Lemma recipes_NoDup : NoDup recipes.
Proof using ids_distinct. by eapply NoDup_fmap_1. Qed.

Lemma same_id r1 r2 :
  r1 ∈ recipes → r2 ∈ recipes → recipe_id r1 = recipe_id r2 → r1 = r2.
Proof using ids_distinct. by apply NoDup_fmap_eq. Qed.

Lemma exclusivity_NoDup days : NoDup (exclusivity recipes meals days).
Proof using meals_distinct.
  apply NoDup_bind; [| |apply NoDup_seq].
  - intros d1 d2 y _ _ (m1 & ->%list_elem_of_singleton & _)%list_elem_of_bind
      (m2 & [=]%list_elem_of_singleton & _)%list_elem_of_bind. done.
  - intros d _. apply NoDup_bind; [| |done].
    + by intros m1 m2 y _ _ ->%list_elem_of_singleton [=]%list_elem_of_singleton.
    + intros m _. apply NoDup_singleton.
Qed.

Lemma no_duplicate_per_day_NoDup days :
  NoDup (no_duplicate_per_day recipes meals days).
Proof using ids_distinct.
  apply NoDup_bind; [| |apply NoDup_seq].
  - intros d1 d2 y _ _ (r1 & ->%list_elem_of_singleton & _)%list_elem_of_bind
      (r2 & [=]%list_elem_of_singleton & _)%list_elem_of_bind. done.
  - intros d _. apply NoDup_bind; [| |apply recipes_NoDup].
    + intros r1 r2 y H1 H2 ->%list_elem_of_singleton [=]%list_elem_of_singleton.
      by apply same_id.
    + intros r _. apply NoDup_singleton.
Qed.

Lemma anti_repetition_NoDup days : NoDup (anti_repetition recipes meals days).
Proof using meals_distinct ids_distinct.
  apply NoDup_bind; [| |apply NoDup_seq].
  - intros d1 d2 y _ _ (m1 & (r1 & ->%list_elem_of_singleton & _)%list_elem_of_bind & _)%list_elem_of_bind
      (m2 & (r2 & [=]%list_elem_of_singleton & _)%list_elem_of_bind & _)%list_elem_of_bind.
    done.
  - intros d _. apply NoDup_bind; [| |done].
    + intros m1 m2 y _ _ (r1 & ->%list_elem_of_singleton & _)%list_elem_of_bind
        (r2 & [=]%list_elem_of_singleton & _)%list_elem_of_bind. done.
    + intros m _. apply NoDup_bind; [| |apply recipes_NoDup].
      * intros r1 r2 y H1 H2 ->%list_elem_of_singleton [=]%list_elem_of_singleton.
        by apply same_id.
      * intros r _. apply NoDup_singleton.
Qed.

Lemma forbidden_NoDup tier item_name ds :
  NoDup ds → NoDup (forbidden recipes meals tier item_name ds).
Proof using meals_distinct ids_distinct.
  intros Hds. apply NoDup_bind; [| |done].
  - intros d1 d2 y _ _ (m1 & (r1 & H1 & _)%list_elem_of_bind & _)%list_elem_of_bind
      (m2 & (r2 & H2 & _)%list_elem_of_bind & _)%list_elem_of_bind.
    repeat case_decide; try by apply elem_of_nil in H1.
    + apply list_elem_of_singleton in H1, H2. congruence.
    + by apply elem_of_nil in H2.
  - intros d _. apply NoDup_bind; [| |done].
    + intros m1 m2 y _ _ (r1 & H1 & _)%list_elem_of_bind (r2 & H2 & _)%list_elem_of_bind.
      repeat case_decide; try by apply elem_of_nil in H1.
      * apply list_elem_of_singleton in H1, H2. congruence.
      * by apply elem_of_nil in H2.
    + intros m _. apply NoDup_bind; [| |apply recipes_NoDup].
      * intros r1 r2 y Hr1 Hr2 H1 H2.
        repeat case_decide; try by apply elem_of_nil in H1.
        -- apply list_elem_of_singleton in H1, H2. apply same_id; congruence.
        -- by apply elem_of_nil in H2.
      * intros r _. case_decide; [apply NoDup_singleton|apply NoDup_nil_2].
Qed.

Lemma cutoff_days_NoDup days k : NoDup (cutoff_days days k).
Proof. unfold cutoff_days. repeat case_match; try apply NoDup_seq. apply NoDup_nil_2. Qed.

Lemma expiry_cutoff_NoDup tier days item_name data :
  NoDup (expiry_cutoff float_of_string stdout_accepts recipes meals tier days item_name data).
Proof using meals_distinct ids_distinct.
  unfold expiry_cutoff. case_match; try apply NoDup_nil_2.
  apply forbidden_NoDup, cutoff_days_NoDup.
Qed.

Lemma inventory_capacity_NoDup tier days :
  NoDup (inventory_capacity float_of_string stdout_accepts inventory recipes meals tier days).
Proof using meals_distinct ids_distinct.
  apply NoDup_bind; [| |apply NoDup_map_to_list].
  - intros [i1 d1] [i2 d2] [n c] Hm1%elem_of_map_to_list Hm2%elem_of_map_to_list H1 H2.
    assert (∀ i d, (n, c) ∈ (InventoryLimit i,
        at_most (total_usage recipes meals days i) (available_qty d))
        :: expiry_cutoff float_of_string stdout_accepts recipes meals tier days i d →
      n = InventoryLimit i ∨ ∃ d' m rid, n = ExpiredItem tier i d' m rid) as Hshape.
    { intros i d [[= -> _]|Hin]%elem_of_cons; [by left|right].
      apply elem_of_expiry_cutoff in Hin as (k & d' & m & r & _ & _ & _ & _ & _ & _ & -> & _).
      eauto. }
    assert (i1 = i2) as ->.
    { destruct (Hshape _ _ H1) as [->|(? & ? & ? & ->)],
        (Hshape _ _ H2) as [?|(? & ? & ? & ?)]; congruence. }
    congruence.
  - intros [item_name data] _. apply NoDup_cons. split; [|apply expiry_cutoff_NoDup].
    intros Hin. by apply elem_of_expiry_cutoff in Hin
      as (k & d' & m & r & _ & _ & _ & _ & _ & _ & ? & _).
Qed.

Lemma model_constraints_NoDup anti tier days :
  NoDup (constraints (model float_of_string stdout_accepts inventory recipes meals anti tier days)).
Proof using meals_distinct ids_distinct.
  unfold model. simpl.
  apply NoDup_app. split; [apply exclusivity_NoDup|]. split.
  { intros [n c] (d & m & _ & _ & -> & _)%elem_of_exclusivity.
    rewrite !elem_of_app, elem_of_no_duplicate_per_day, elem_of_inventory_capacity.
    setoid_rewrite elem_of_expiry_cutoff.
    intros [?|[?|Hanti]]; [naive_solver..|].
    destruct anti; [|by apply elem_of_nil in Hanti].
    apply elem_of_anti_repetition in Hanti. naive_solver. }
  apply NoDup_app. split; [apply no_duplicate_per_day_NoDup|]. split.
  { intros [n c] (d & r & _ & _ & -> & _)%elem_of_no_duplicate_per_day.
    rewrite !elem_of_app, elem_of_inventory_capacity.
    setoid_rewrite elem_of_expiry_cutoff.
    intros [?|Hanti]; [naive_solver|].
    destruct anti; [|by apply elem_of_nil in Hanti].
    apply elem_of_anti_repetition in Hanti. naive_solver. }
  apply NoDup_app. split; [apply inventory_capacity_NoDup|]. split.
  { intros [n c] Hinv Hanti.
    destruct anti; [|by apply elem_of_nil in Hanti].
    apply elem_of_anti_repetition in Hanti.
    apply elem_of_inventory_capacity in Hinv.
    setoid_rewrite elem_of_expiry_cutoff in Hinv. naive_solver. }
  destruct anti; [apply anti_repetition_NoDup|apply NoDup_nil_2].
Qed.

(** With distinct meal types and distinct recipe ids no two constraints
    of a model share a name. *)
Lemma names_NoDup anti tier days :
  NoDup (names (model float_of_string stdout_accepts inventory recipes meals anti tier days)).
Proof using meals_distinct ids_distinct.
  unfold names. apply NoDup_fmap_fst; [|apply model_constraints_NoDup].
  intros n c1 c2 H1 H2.
  rewrite elem_of_model, elem_of_exclusivity, elem_of_no_duplicate_per_day,
    elem_of_inventory_capacity, elem_of_anti_repetition in H1, H2.
  setoid_rewrite elem_of_expiry_cutoff in H1.
  setoid_rewrite elem_of_expiry_cutoff in H2.
  destruct H1 as [(d & m & _ & _ & -> & ->)|[(d & r & _ & _ & -> & ->)|
    [(i & data & Hi & [[-> ->]|(k & d & m & r & _ & _ & _ & _ & _ & _ & -> & ->)])|
     (_ & d & m & r & _ & _ & _ & -> & ->)]]];
  destruct H2 as [(d' & m' & _ & _ & Hn & ->)|[(d' & r' & _ & _ & Hn & ->)|
    [(i' & data' & Hi' & [[Hn ->]|(k' & d' & m' & r' & _ & _ & _ & _ & _ & _ & Hn & ->)])|
     (_ & d' & m' & r' & _ & _ & _ & Hn & ->)]]];
  try discriminate Hn; injection Hn as ?; subst; try congruence.
  all: repeat match goal with H : recipe_id _ = recipe_id _ |- _ => rewrite H end; done.
Qed.

End Names.

Section Built.

Context (float_of_string : string → option pyfloat).
Context (stdout_accepts : string → bool).
Context (inventory : gmap string item_data).
Context (recipes : list recipe) (meals : list string).

Lemma names_NoDup_inv anti tier days :
  (1 ≤ days)%nat →
  NoDup (names (model float_of_string stdout_accepts inventory recipes meals anti tier days)) →
  NoDup meals ∧ NoDup (recipe_id <$> recipes).
Proof.
  intros Hdays. unfold names, model. simpl. rewrite !fmap_app.
  intros (Hex & _ & (Hnd & _ & _)%NoDup_app)%NoDup_app.
  destruct days as [|days]; [lia|]. split.
  - unfold exclusivity in Hex. rewrite <- cons_seq in Hex. simpl in Hex.
    rewrite fmap_app in Hex. apply NoDup_app in Hex as (Hex & _ & _).
    rewrite bind_singleton, <- list_fmap_compose in Hex.
    by apply NoDup_fmap_1 in Hex.
  - unfold no_duplicate_per_day in Hnd. rewrite <- cons_seq in Hnd. simpl in Hnd.
    rewrite fmap_app in Hnd. apply NoDup_app in Hnd as (Hnd & _ & _).
    rewrite bind_singleton, <- list_fmap_compose in Hnd.
    rewrite (list_fmap_compose recipe_id (NoDuplicateRecipe 0)) in Hnd.
    by apply NoDup_fmap_1 in Hnd.
Qed.

Lemma built_model days p :
  built float_of_string stdout_accepts inventory recipes meals days p →
  conversions_pass float_of_string stdout_accepts inventory ∧
  ∃ anti tier,
    p = model float_of_string stdout_accepts inventory recipes meals anti tier days ∧
    NoDup (names p).
Proof.
  intros [H|[H|H]].
  - apply build_prob_Ok in H as (? & ?%NoDup_fmap_1 & ->). eauto.
  - apply build_prob2_Ok in H as (? & ?%NoDup_fmap_1 & ->). eauto.
  - apply build_prob3_Ok in H as (? & ?%NoDup_fmap_1 & ->). eauto.
Qed.

Lemma built_rendered days p :
  built float_of_string stdout_accepts inventory recipes meals days p →
  NoDup (render <$> names p).
Proof.
  intros [H|[H|H]].
  - by apply build_prob_Ok in H as (? & ? & ->).
  - by apply build_prob2_Ok in H as (? & ? & ->).
  - by apply build_prob3_Ok in H as (? & ? & ->).
Qed.

Lemma built_distinct days p :
  (1 ≤ days)%nat → built float_of_string stdout_accepts inventory recipes meals days p →
  NoDup meals ∧ NoDup (recipe_id <$> recipes).
Proof.
  intros Hdays (_ & anti & tier & -> & Hnd)%built_model.
  by eapply names_NoDup_inv.
Qed.

End Built.

(** ** The text of the names

    PuLP compares the sanitised texts, so two names can clash although the
    values they were built from differ. A model that PuLP accepts for a
    horizon is accepted again without its consecutive-day family, under
    another expiry tag and for a shorter horizon: the relaxed and the
    shrunk models are built whenever the full one is. *)

Lemma sanitise_app s1 s2 : sanitise (s1 +:+ s2) = sanitise s1 +:+ sanitise s2.
Proof. induction s1 as [|c s1 IH]; simpl; [done|]. by rewrite IH. Qed.

Lemma append_cancel s x y : s +:+ x = s +:+ y → x = y.
Proof. induction s as [|c s IH]; simpl; [done|]. intros [= H]. by apply IH. Qed.

Lemma render_initial n : ∃ s, render n = String (initial n) s.
Proof. destruct n; eexists; reflexivity. Qed.

Lemma render_is_expiry n n' : render n = render n' → is_expiry n = is_expiry n'.
Proof.
  destruct (render_initial n) as [s ->], (render_initial n') as [s' ->].
  intros [= Hi _]. by destruct n, n'.
Qed.

Lemma render_retag t t' i d m r i' d' m' r' :
  render (ExpiredItem t i d m r) = render (ExpiredItem t i' d' m' r') →
  render (ExpiredItem t' i d m r) = render (ExpiredItem t' i' d' m' r').
Proof.
  unfold render. cbn [name_text].
  rewrite !(sanitise_app "ExpiredItem"), !(sanitise_app (tier_tag _)).
  intros H%append_cancel%append_cancel. by rewrite H.
Qed.

Section Rendered.

Context (float_of_string : string → option pyfloat).
Context (stdout_accepts : string → bool).
Context (inventory : gmap string item_data).
Context (recipes : list recipe) (meals : list string).

Lemma elem_of_names p n : n ∈ names p ↔ ∃ c, (n, c) ∈ constraints p.
Proof.
  unfold names. rewrite list_elem_of_fmap. split.
  - intros ([n' c] & -> & Hin). by exists c.
  - intros (c & Hin). by exists (n, c).
Qed.

Lemma names_relaxed anti tier h days n :
  (h ≤ days)%nat →
  n ∈ names (model float_of_string stdout_accepts inventory recipes meals anti tier h) →
  retag 1 n ∈ names (model float_of_string stdout_accepts inventory recipes meals
                           true 1 days) ∧
  retag tier n = n.
Proof.
  intros Hh (c & Hin)%elem_of_names. rewrite elem_of_names.
  setoid_rewrite elem_of_model. apply elem_of_model in Hin.
  destruct Hin as [Hin|[Hin|[Hin|[_ Hin]]]].
  - apply elem_of_exclusivity in Hin as (d & m & Hd & Hm & -> & ->).
    split; [|done]. eexists. left. apply elem_of_exclusivity.
    exists d, m. split_and!; [lia|done..].
  - apply elem_of_no_duplicate_per_day in Hin as (d & r & Hd & Hr & -> & ->).
    split; [|done]. eexists. right; left. apply elem_of_no_duplicate_per_day.
    exists d, r. split_and!; [lia|done..].
  - apply elem_of_inventory_capacity in Hin
      as (item_name & data & Hitem & [[-> ->]|Hin]).
    + split; [|done]. eexists. do 2 right; left.
      apply elem_of_inventory_capacity. exists item_name, data.
      split; [done|]. by left.
    + apply elem_of_expiry_cutoff in Hin
        as (k & d & m & r & Hk & Hd & Hkd & Hm & Hr & Href & -> & ->).
      split; [|done]. eexists. do 2 right; left.
      apply elem_of_inventory_capacity. exists item_name, data.
      split; [done|]. right. apply elem_of_expiry_cutoff.
      exists k, d, m, r. split_and!; [done|lia|done..].
  - apply elem_of_anti_repetition in Hin as (d & m & r & Hd & Hm & Hr & -> & ->).
    split; [|done]. eexists. do 3 right. split; [done|].
    apply elem_of_anti_repetition. exists d, m, r. split_and!; [lia|done..].
Qed.

Lemma rendered_relaxed anti tier h days :
  (1 ≤ days)%nat → (h ≤ days)%nat →
  NoDup (render <$> names (model float_of_string stdout_accepts inventory recipes
                                 meals true 1 days)) →
  NoDup (render <$> names (model float_of_string stdout_accepts inventory recipes
                                 meals anti tier h)).
Proof.
  intros Hdays Hh Htop.
  destruct (names_NoDup_inv float_of_string stdout_accepts inventory recipes meals
              true 1 days Hdays) as [Hmeals Hids]; [by eapply NoDup_fmap_1|].
  apply NoDup_fmap_2_strong; [|by apply names_NoDup].
  intros x y Hx Hy Heq.
  destruct (names_relaxed _ _ _ _ _ Hh Hx) as [Hx1 Hxt].
  destruct (names_relaxed _ _ _ _ _ Hh Hy) as [Hy1 Hyt].
  pose proof (render_is_expiry _ _ Heq) as Hexp.
  assert (retag 1 x = retag 1 y) as Hretag.
  { apply (NoDup_fmap_eq render _ _ _ Htop Hx1 Hy1).
    destruct x, y; try discriminate Hexp; try done.
    simpl in Hxt, Hyt |- *. injection Hxt as ->. injection Hyt as ->.
    by eapply render_retag. }
  rewrite <- Hxt, <- Hyt.
  destruct x, y; try discriminate Hexp; simpl in Hretag |- *; congruence.
Qed.

End Rendered.

(** ** Sums of rationals *)

Lemma Qsum_app l1 l2 : (Qsum (l1 ++ l2) == Qsum l1 + Qsum l2)%Q.
Proof.
  induction l1 as [|x l1 IH]; simpl; [ring|]. rewrite IH. ring.
Qed.

Lemma Qsum_perm l1 l2 : l1 ≡ₚ l2 → (Qsum l1 == Qsum l2)%Q.
Proof.
  induction 1 as [|x l1 l2 _ IH|x y l|l1 l2 l3 _ IH1 _ IH2]; simpl.
  - reflexivity.
  - by rewrite IH.
  - ring.
  - by rewrite IH1.
Qed.

Lemma Qsum_bind {A} (f : A → list Q) (l : list A) :
  (Qsum (l ≫= f) == Qsum ((λ x, Qsum (f x)) <$> l))%Q.
Proof.
  induction l as [|x l IH]; simpl; [reflexivity|].
  by rewrite Qsum_app, IH.
Qed.

Lemma Qsum_ext {A} (f g : A → Q) (l : list A) :
  (∀ x, x ∈ l → (f x == g x)%Q) → (Qsum (f <$> l) == Qsum (g <$> l))%Q.
Proof.
  induction l as [|x l IH]; intros H; simpl; [reflexivity|].
  rewrite (H x), IH; [reflexivity| |left]. intros y Hy. apply H. by right.
Qed.

Lemma Qsum_zero {A} (f : A → Q) (l : list A) :
  (∀ x, x ∈ l → (f x == 0)%Q) → (Qsum (f <$> l) == 0)%Q.
Proof.
  induction l as [|x l IH]; intros H; simpl; [reflexivity|].
  rewrite (H x), IH; [ring| |left]. intros y Hy. apply H. by right.
Qed.

Lemma eval_app values e1 e2 :
  (eval values (e1 ++ e2) == eval values e1 + eval values e2)%Q.
Proof. unfold eval. by rewrite fmap_app, Qsum_app. Qed.

Lemma eval_bind {A} values (f : A → list (Q * var)) (l : list A) :
  (eval values (l ≫= f) == Qsum ((λ x, eval values (f x)) <$> l))%Q.
Proof.
  induction l as [|x l IH]; simpl; [reflexivity|].
  by rewrite eval_app, IH.
Qed.

Lemma eval_singleton values c v : (eval values [(c, v)] == c * values v)%Q.
Proof. unfold eval. simpl. ring. Qed.

Lemma filter_bind_nil {A B} (P : B → Prop) `{∀ y, Decision (P y)}
    (f : A → list B) (l : list A) :
  (∀ y, y ∈ l → filter P (f y) = []) → filter P (l ≫= f) = [].
Proof.
  induction l as [|z l IH]; intros Hnone; csimpl; [done|].
  rewrite filter_app, (Hnone z), IH; [done| |left].
  intros y Hy. apply Hnone. by right.
Qed.

Lemma filter_bind_unique {A B} (P : B → Prop) `{∀ y, Decision (P y)}
    (f : A → list B) (l : list A) (x : A) :
  NoDup l → x ∈ l →
  (∀ y, y ∈ l → y ≠ x → filter P (f y) = []) →
  filter P (l ≫= f) = filter P (f x).
Proof.
  induction l as [|z l IH]; [by intros _ ?%elem_of_nil|].
  intros [Hz Hnd]%NoDup_cons Hx Hother. csimpl. rewrite filter_app.
  apply elem_of_cons in Hx as [->|Hx].
  - rewrite filter_bind_nil, app_nil_r; [done|].
    intros y Hy. apply Hother; [by right|]. intros ->. done.
  - rewrite (Hother z), IH; [done..| |left|].
    + intros y Hy. apply Hother. by right.
    + intros ->. done.
Qed.

(** ** The objective *)

Section Objective.

Context (float_of_string : string → option pyfloat).
Context (stdout_accepts : string → bool).
Context (inventory : gmap string item_data).
Context (recipes : list recipe) (meals : list string).

Lemma expiry_weight_of_lookup item_name data :
  inventory !! item_name = Some data →
  expiryWeight inventory item_name = expiry_weight_of data.
Proof.
  intros H. unfold expiryWeight, expiry_weight_of. rewrite H.
  by destruct data as [q [w|] e| |].
Qed.

Lemma recipe_value_fold (l : list (string * Q)) (acc : Q) :
  (fold_left
     (λ acc '(item_name, amount_needed),
        match inventory !! item_name with
        | Some data => (acc + expiry_weight_of data * amount_needed)%Q
        | None => acc
        end) l acc ==
   acc + Qsum ((λ '(item_name, needed),
                  (expiryWeight inventory item_name * needed)%Q) <$>
               filter (λ '(item_name, _), is_Some (inventory !! item_name)) l))%Q.
Proof.
  revert acc. induction l as [|[item_name amount] l IH]; intros acc; simpl.
  - ring.
  - rewrite IH.
    destruct (decide (is_Some (inventory !! item_name))) as [[data Hi]|Hn].
    + rewrite filter_cons_True by (simpl; eauto). rewrite Hi, fmap_cons.
      unfold Qsum. simpl. rewrite (expiry_weight_of_lookup _ _ Hi). ring.
    + rewrite filter_cons_False by done.
      apply eq_None_not_Some in Hn. rewrite Hn. reflexivity.
Qed.

(** The accumulation loop computes the sum the spec describes. *)
Lemma recipe_value_recipeValue r :
  (recipe_value inventory r == recipeValue inventory r)%Q.
Proof. unfold recipe_value, recipeValue. rewrite recipe_value_fold. ring. Qed.

Lemma recipeValue_absent item_name r :
  inventory !! item_name = None →
  (recipeValue inventory (without_ingredient item_name r) ==
   recipeValue inventory r)%Q.
Proof.
  intros Habsent. unfold recipeValue, without_ingredient, ingredients at 1. simpl.
  destruct (ingredients r !! item_name) as [amount|] eqn:Hi.
  - apply Qsum_perm. apply fmap_Permutation.
    rewrite <- (map_to_list_delete (ingredients r) item_name amount Hi).
    rewrite filter_cons_False; [done|]. simpl. rewrite Habsent. by intros [? ?].
  - by rewrite delete_id.
Qed.

Lemma objective_terms_filter days d m r :
  NoDup meals → NoDup (recipe_id <$> recipes) →
  (d < days)%nat → m ∈ meals → r ∈ recipes →
  filter (λ t, t.2 = (d, m, recipe_id r))
         (objective_terms inventory recipes meals days) =
  [objective_term inventory days d m r].
Proof.
  intros Hmeals Hids Hd Hm Hr. unfold objective_terms.
  rewrite (filter_bind_unique _ _ _ d); [|apply NoDup_seq|apply elem_of_seq; lia|].
  - rewrite (filter_bind_unique _ _ _ m); [|done..|].
    + rewrite (filter_bind_unique _ _ _ r); [|by eapply NoDup_fmap_1|done|].
      * by rewrite filter_cons_True.
      * intros r' Hr' Hne. rewrite filter_cons_False; [done|]. simpl.
        intros [= Hid]. apply Hne. by apply (NoDup_fmap_eq recipe_id recipes).
    + intros m' _ Hne. apply filter_bind_nil. intros r' _.
      rewrite filter_cons_False; [done|]. simpl. congruence.
  - intros d' _ Hne. apply filter_bind_nil. intros m' _.
    apply filter_bind_nil. intros r' _.
    rewrite filter_cons_False; [done|]. simpl. congruence.
Qed.

End Objective.

(** C1. In every model the endpoint builds, the objective coefficient of
    the variable x(d,m,r) is recipeValue(r) * 100 + 10000 * (days - d + 1)^2,
    where recipeValue(r) sums expiry weight (1 when absent) times quantity
    needed over the ingredients of r that name an inventory item; an
    ingredient that names no inventory item contributes nothing. *)
Theorem objective_coefficient
    (float_of_string : string → option pyfloat)
    (stdout_accepts : string → bool)
    (inventory : gmap string item_data) (recipes : list recipe)
    (meals : list string) (days : nat) (p : LpProblem)
    (d : nat) (m : string) (r : recipe) :
  built float_of_string stdout_accepts inventory recipes meals days p →
  (d < days)%nat → m ∈ meals → r ∈ recipes →
  (coefficient (objective p) (d, m, recipe_id r) ==
   recipeValue inventory r * 100 +
   10000 * inject_Z ((Z.of_nat days - Z.of_nat d + 1) ^ 2))%Q ∧
  ∀ item_name, inventory !! item_name = None →
    (recipeValue inventory (without_ingredient item_name r) ==
     recipeValue inventory r)%Q.
Proof.
  intros Hbuilt Hd Hm Hr. split; [|intros; by apply recipeValue_absent].
  destruct (built_distinct _ _ _ _ _ days p ltac:(lia) Hbuilt) as [Hmeals Hids].
  apply built_model in Hbuilt as (_ & anti & tier & -> & _).
  unfold coefficient, model. simpl.
  rewrite objective_terms_filter by done.
  unfold objective_term, base_slot_fill_bonus. simpl.
  rewrite recipe_value_recipeValue. ring.
Qed.

Lemma objective_coefficient_witness :
  (coefficient (objective omelet_model) (1%nat, "Breakfast", 0%Z) ==
   recipeValue (inventory omelet_request) omelet * 100 +
   10000 * inject_Z ((Z.of_nat 2 - Z.of_nat 1 + 1) ^ 2))%Q.
Proof.
  apply (objective_coefficient float_literals strict_utf8 (inventory omelet_request)
           [omelet] ["Breakfast"] 2 omelet_model 1 "Breakfast" omelet).
  - left. vm_compute. reflexivity.
  - lia.
  - apply list_elem_of_singleton. reflexivity.
  - apply list_elem_of_singleton. reflexivity.
Defined.

(** ** The extraction *)

Section Extraction.

Context (recipes : list recipe) (meals : list string).

Lemma select_recipe_spec values d m rs acc :
  select_recipe values d m rs acc =
  acc ++ option_list
           ((λ ir : nat * recipe, {| meal_type := m; recipeId := recipe_id ir.2 |}) <$>
            list_find (selected values d m) rs).
Proof.
  induction rs as [|r rs IH]; simpl.
  - by rewrite app_nil_r.
  - destruct (Qeq_bool (values (d, m, recipe_id r)) 1) eqn:E.
    + apply Qeq_bool_iff in E. by rewrite decide_True.
    + rewrite decide_False.
      * rewrite IH. f_equal. by destruct (list_find _ rs) as [[i r']|].
      * intros H. apply Qeq_bool_iff in H. congruence.
Qed.

Lemma extract_day_spec values d :
  extract_day recipes meals values d = omap (slot_entry recipes values d) meals.
Proof.
  unfold extract_day.
  enough (∀ acc, fold_left (λ acc m, select_recipe values d m recipes acc) meals acc
                 = acc ++ omap (slot_entry recipes values d) meals) as H by apply H.
  induction meals as [|m ms IH]; intros acc; simpl.
  - by rewrite app_nil_r.
  - rewrite IH, select_recipe_spec, <- app_assoc. f_equal.
    unfold slot_entry. by destruct (list_find _ recipes) as [[i r]|].
Qed.

Lemma extract_schedule_acc values (ds : list nat) acc :
  fold_left
    (λ schedule d,
       let dm := extract_day recipes meals values d in
       if (0 <? length dm)%nat
       then schedule ++ [{| day := day_label d; day_meals := dm |}]
       else schedule) ds acc =
  acc ++ filter (λ e, day_meals e ≠ [])
           ((λ d, {| day := day_label d;
                     day_meals := omap (slot_entry recipes values d) meals |}) <$> ds).
Proof.
  revert acc. induction ds as [|d ds IH]; intros acc.
  - simpl. by rewrite app_nil_r.
  - cbn [fold_left]. rewrite IH, extract_day_spec, fmap_cons.
    destruct (omap (slot_entry recipes values d) meals) as [|me mes] eqn:E.
    + rewrite filter_cons_False; [done|]. simpl. by intros ?.
    + rewrite filter_cons_True by done. simpl. by rewrite <- app_assoc.
Qed.

End Extraction.

Lemma extract_schedule_schedule_of
    (recipes : list recipe) (meals : list string) values days :
  extract_schedule recipes meals values days =
  schedule_of recipes meals values days.
Proof. unfold extract_schedule, schedule_of. by rewrite extract_schedule_acc. Qed.

(** C6. The extraction visits the days 0 .. days-1 in order and, within a
    day, the meal types in the order of the request; a slot yields the
    entry of the first recipe, in catalog order, whose variable has value
    1, and no other; a day without entries is left out. *)
Theorem extract_schedule_spec
    (recipes : list recipe) (meals : list string)
    (values : var → Q) (days : nat) :
  extract_schedule recipes meals values days =
  schedule_of recipes meals values days ∧
  ∀ d m me,
    slot_entry recipes values d m = Some me ↔
    ∃ i r, recipes !! i = Some r ∧
           (values (d, m, recipe_id r) == 1)%Q ∧
           (∀ j r', recipes !! j = Some r' → (j < i)%nat →
                    ¬ (values (d, m, recipe_id r') == 1)%Q) ∧
           me = {| meal_type := m; recipeId := recipe_id r |}.
Proof.
  split.
  - apply extract_schedule_schedule_of.
  - intros d m me. unfold slot_entry. split.
    + destruct (list_find _ recipes) as [[i r]|] eqn:E; [|done].
      intros [= <-]. apply list_find_Some in E as (? & ? & ?). by exists i, r.
    + intros (i & r & Hi & Hsel & Hfirst & ->).
      assert (list_find (selected values d m) recipes = Some (i, r)) as ->; [|done].
      by apply list_find_Some.
Qed.

(** ** The relaxation pipeline *)

Lemma list_find_cons {A} (P : A → Prop) `{∀ x, Decision (P x)} x l :
  list_find P (x :: l) =
  if decide (P x) then Some (0%nat, x) else prod_map S id <$> list_find P l.
Proof. done. Qed.

Lemma fmap_bind {A B C} (f : B → C) (g : A → list B) (l : list A) :
  f <$> (l ≫= g) = l ≫= (λ x, f <$> g x).
Proof.
  induction l as [|x l IH]; [done|]. csimpl. by rewrite fmap_app, IH.
Qed.

Lemma bind_ext {A B} (f g : A → list B) (l : list A) :
  (∀ x, x ∈ l → f x = g x) → l ≫= f = l ≫= g.
Proof.
  induction l as [|x l IH]; intros H; [done|]. csimpl.
  rewrite (H x), IH; [done| |left]. intros y Hy. apply H. by right.
Qed.

Lemma let_pair {A B C} (p : A * B) (f : A → B → C) :
  (let '(a, b) := p in f a b) = f p.1 p.2.
Proof. by destruct p. Qed.

Section Pipeline.

Context (float_of_string : string → option pyfloat).
Context (stdout_accepts : string → bool).
Context (solve : LpProblem → result (LpStatus * (var → Q))).
Context (inventory : gmap string item_data).
Context (recipes : list recipe) (meals : list string).

Abbreviation mdl := (model float_of_string stdout_accepts inventory recipes meals).

Lemma expiry_cutoff_tier t1 t2 days item_name data :
  (expiry_cutoff float_of_string stdout_accepts recipes meals t1 days item_name data).*2 =
  (expiry_cutoff float_of_string stdout_accepts recipes meals t2 days item_name data).*2.
Proof.
  unfold expiry_cutoff. case_match; try done. unfold forbidden.
  rewrite !fmap_bind. apply bind_ext; intros d _.
  rewrite !fmap_bind. apply bind_ext; intros m _.
  rewrite !fmap_bind. apply bind_ext; intros r _. by case_decide.
Qed.

Lemma inventory_capacity_tier t1 t2 days :
  (inventory_capacity float_of_string stdout_accepts inventory recipes meals t1 days).*2 =
  (inventory_capacity float_of_string stdout_accepts inventory recipes meals t2 days).*2.
Proof.
  unfold inventory_capacity. rewrite !fmap_bind. apply bind_ext.
  intros [item_name data] _. rewrite !fmap_cons. f_equal. apply expiry_cutoff_tier.
Qed.


Context (days : nat).

Hypothesis conversions : conversions_pass float_of_string stdout_accepts inventory.
Hypothesis horizon : (1 ≤ days)%nat.
Hypothesis accepted : NoDup (render <$> names (mdl true 1 days)).

Lemma build_prob_model :
  build_prob float_of_string stdout_accepts inventory recipes meals days =
  Ok (mdl true 1 days).
Proof using conversions accepted. by apply build_prob_Ok. Qed.

Lemma build_prob2_model :
  build_prob2 float_of_string stdout_accepts inventory recipes meals days =
  Ok (mdl false 2 days).
Proof using conversions horizon accepted.
  apply build_prob2_Ok. split_and!; [done|by apply (rendered_relaxed _ _ _ _ _ _ _ _ days)|done].
Qed.

Lemma build_prob3_model reduced_days :
  (reduced_days ≤ days)%nat →
  build_prob3 float_of_string stdout_accepts inventory recipes meals reduced_days =
  Ok (mdl false 3 reduced_days).
Proof using conversions horizon accepted.
  intros Hle. apply build_prob3_Ok.
  split_and!; [done|by apply (rendered_relaxed _ _ _ _ _ _ _ _ days)|done].
Qed.

Lemma status_ok_successful st : status_ok st = true ↔ successful st.
Proof. unfold successful. destruct st; simpl; naive_solver. Qed.

Lemma shrink_spec (horizons : list nat) (log : list LpProblem) :
  Forall (λ h, h ≤ days)%nat horizons →
  let shrunk := (λ h, (mdl false 3 h, h)) <$> horizons in
  shrink float_of_string stdout_accepts solve inventory recipes meals horizons log =
  match list_find (decisive solve) shrunk with
  | Some (i, a) =>
      (rbind (outcome_of solve a) (λ found, Ok (Some found)),
       log ++ (take (S i) shrunk).*1)
  | None => (Ok None, log ++ shrunk.*1)
  end.
Proof using conversions horizon accepted.
  simpl. revert log. induction horizons as [|h hs IH]; intros log Hle.
  - simpl. by rewrite app_nil_r.
  - apply Forall_cons in Hle as [Hh Hle].
    cbn [shrink]. rewrite build_prob3_model, fmap_cons, list_find_cons by done.
    destruct (decide (decisive solve (mdl false 3 h, h))) as [Hs|Hs];
      unfold decisive in Hs; unfold outcome_of; simpl in Hs |- *.
    + destruct (solve (mdl false 3 h)) as [[st values]|e]; [|done].
      apply status_ok_successful in Hs. by rewrite Hs.
    + destruct (solve (mdl false 3 h)) as [[st values]|e]; [|by destruct Hs].
      rewrite <- status_ok_successful in Hs. apply not_true_is_false in Hs.
      rewrite Hs, IH by done.
      destruct (list_find _ _) as [[i a]|]; simpl; by rewrite <- app_assoc.
Qed.

Lemma relax_spec :
  let tries := attempts float_of_string stdout_accepts inventory recipes meals days in
  relax float_of_string stdout_accepts solve inventory recipes meals days =
  match list_find (decisive solve) tries with
  | Some (i, a) => (outcome_of solve a, (take (S i) tries).*1)
  | None => (outcome_of solve (mdl false 2 days, days), tries.*1)
  end.
Proof using conversions horizon accepted.
  cbv zeta. unfold relax, attempts.
  rewrite build_prob_model, build_prob2_model, shrink_spec.
  2: { apply Forall_forall. intros h Hin%list_elem_of_In%in_rev%list_elem_of_In%elem_of_seq. lia. }
  cbv zeta. rewrite !list_find_cons.
  destruct (decide (decisive solve (mdl true 1 days, days))) as [H1|H1];
    unfold decisive in H1; simpl in H1.
  { unfold outcome_of. simpl.
    destruct (solve (mdl true 1 days)) as [[st1 values1]|e1]; [|done].
    apply status_ok_successful in H1. by rewrite H1. }
  destruct (solve (mdl true 1 days)) as [[st1 values1]|e1]; [|by destruct H1].
  rewrite <- status_ok_successful in H1. apply not_true_is_false in H1.
  rewrite H1.
  destruct (decide (decisive solve (mdl false 2 days, days))) as [H2|H2];
    unfold decisive in H2; simpl in H2.
  { unfold outcome_of. simpl.
    destruct (solve (mdl false 2 days)) as [[st2 values2]|e2]; [|done].
    apply status_ok_successful in H2. by rewrite H2. }
  destruct (solve (mdl false 2 days)) as [[st2 values2]|e2] eqn:Hsolve2;
    [|by destruct H2].
  rewrite <- status_ok_successful in H2. apply not_true_is_false in H2.
  rewrite H2.
  destruct (list_find _ _) as [[i a]|]; simpl.
  - unfold outcome_of. by destruct (solve a.1) as [[st values]|e].
  - unfold outcome_of. simpl. by rewrite Hsolve2.
Qed.

End Pipeline.

Lemma solve_meal_plan_valid float_of_string stdout_accepts solve req :
  valid req →
  solve_meal_plan float_of_string stdout_accepts solve req =
  match relax float_of_string stdout_accepts solve (inventory req) (recipes req) (meals req)
              (days req) with
  | (Ok outcome, log) => (respond (recipes req) (meals req) outcome, log)
  | (Raise _, log) => (ServerError, log)
  end.
Proof.
  intros (Hinv & Hrec & Hmeals & Hdays). unfold solve_meal_plan.
  rewrite !bool_decide_eq_false_2; [|by destruct (meals req)|by destruct (recipes req)|done].
  destruct (Nat.ltb_spec (days req) 1), (Nat.ltb_spec 7 (days req)); try lia. done.
Qed.


Lemma omelet_valid : valid omelet_request.
Proof. unfold valid. vm_compute. split_and!; (done || lia). Qed.




(** ** Shape of the schedule *)

Lemma day_label_inj d1 d2 : day_label d1 = day_label d2 → d1 = d2.
Proof.
  unfold day_label. simpl. intros [= H]. apply pretty_nat_inj in H. lia.
Qed.

Lemma sublist_omap_fmap {A B} (f : A → option B) (g : B → A) (l : list A) :
  (∀ x y, f x = Some y → g y = x) → sublist (g <$> omap f l) l.
Proof.
  intros Hfg. induction l as [|x l IH]; csimpl; [constructor|].
  destruct (f x) as [y|] eqn:E; csimpl.
  - rewrite (Hfg x y E). by constructor.
  - by constructor.
Qed.

Lemma sublist_fmap_filter {A B} (P : B → Prop) `{∀ y, Decision (P y)}
    (f : A → B) (g : B → A) (l : list A) :
  (∀ x, g (f x) = x) → sublist (g <$> filter P (f <$> l)) l.
Proof.
  intros Hgf. induction l as [|x l IH]; csimpl; [constructor|].
  rewrite filter_cons. case_decide; csimpl.
  - rewrite Hgf. by constructor.
  - by constructor.
Qed.

Section Schedule.

Context (recipes : list recipe) (meals : list string).

Lemma slot_entry_Some values d m me :
  slot_entry recipes values d m = Some me →
  meal_type me = m ∧
  ∃ r, r ∈ recipes ∧ selected values d m r ∧ recipeId me = recipe_id r.
Proof.
  unfold slot_entry. destruct (list_find _ recipes) as [[i r]|] eqn:E; [|done].
  intros [= <-]. apply list_find_Some in E as (Hi & Hsel & _).
  split; [done|]. exists r. split_and!; [|done..].
  by eapply list_elem_of_lookup_2.
Qed.

Lemma schedule_of_days values days :
  sublist (day <$> schedule_of recipes meals values days)
          (day_label <$> seq 0 days).
Proof.
  unfold schedule_of. induction (seq 0 days) as [|d ds IH]; csimpl; [constructor|].
  rewrite filter_cons. case_decide; csimpl; by constructor.
Qed.

Lemma schedule_of_entry values days e :
  e ∈ schedule_of recipes meals values days →
  ∃ d, (d < days)%nat ∧ day e = day_label d ∧
       day_meals e = omap (slot_entry recipes values d) meals ∧
       day_meals e ≠ [].
Proof.
  unfold schedule_of. intros [Hne Hin]%list_elem_of_filter.
  apply list_elem_of_fmap in Hin as (d & -> & Hd%elem_of_seq).
  exists d. split_and!; [lia|done..].
Qed.

Lemma day_meals_types values d :
  sublist (meal_type <$> omap (slot_entry recipes values d) meals) meals.
Proof.
  apply sublist_omap_fmap. intros m me H. by apply slot_entry_Some in H as [? _].
Qed.

End Schedule.

Lemma solved_extract float_of_string stdout_accepts solve req st sched log :
  solve_meal_plan float_of_string stdout_accepts solve req = (Solved st sched, log) →
  valid req ∧
  (∃ p, build_prob float_of_string stdout_accepts (inventory req) (recipes req) (meals req)
                   (days req) = Ok p) ∧
  ∃ values h, status_ok st = true ∧ (1 ≤ h ≤ days req)%nat ∧
    sched = extract_schedule (recipes req) (meals req) values h.
Proof.
  unfold solve_meal_plan.
  repeat (case_bool_decide; [done|]).
  destruct (_ || _) eqn:Hdays; [done|].
  apply orb_false_iff in Hdays as [Hlo%Nat.ltb_ge Hhi%Nat.ltb_ge].
  intros Hrun.
  assert (valid req) as Hvalid.
  { unfold valid. split_and!; try done; try lia.
    - intros E. by rewrite E in *.
    - intros E. by rewrite E in *. }
  split; [done|].
  destruct (relax _ _ _ _ _ _) as [[outcome|e] log'] eqn:Hrelax; [|done].
  injection Hrun as Hresp <-.
  assert (∃ p, build_prob float_of_string stdout_accepts (inventory req) (recipes req)
                 (meals req) (days req) = Ok p) as [p Hbuild].
  { unfold relax in Hrelax.
    destruct (build_prob _ _ _ _ _) as [p|e]; [by eexists|done]. }
  split; [by eexists|].
  pose proof Hbuild as (Hconv & Hacc & _)%build_prob_Ok.
  rewrite relax_spec in Hrelax by done. cbv zeta in Hrelax.
  destruct outcome as [[st' values] h]. unfold respond in Hresp.
  destruct (status_ok st') eqn:Hok; [|done]. injection Hresp as -> <-.
  exists values, h. split; [done|]. split; [|done].
  destruct (list_find _ _) as [[i [q h']]|] eqn:Hfind.
  - injection Hrelax as Hout _. unfold outcome_of in Hout. simpl in Hout.
    destruct (solve q) as [[st1 values1]|e]; [|done]. injection Hout as _ _ ->.
    apply list_find_Some in Hfind as (Hi%list_elem_of_lookup_2 & _ & _).
    unfold attempts in Hi.
    apply elem_of_cons in Hi as [[= _ ->]|Hi]; [lia|].
    apply elem_of_cons in Hi as [[= _ ->]|Hi]; [lia|].
    apply list_elem_of_fmap in Hi as (rd & [= _ ->] & Hrd).
    apply list_elem_of_In, in_rev, list_elem_of_In, elem_of_seq in Hrd; lia.
  - injection Hrelax as Hout _. unfold outcome_of in Hout. simpl in Hout.
    destruct (solve _) as [[st1 values1]|e]; [|done]. injection Hout as _ _ <-.
    lia.
Qed.

(** C9. Whatever values the solver returns, also values that set several
    recipes of one slot to 1, a schedule the endpoint returns has one entry
    per day at most, each day has at most one entry per meal type, and
    every recipe id in it is the id of a recipe of the request. *)
Theorem schedule_one_entry_per_slot
    (float_of_string : string → option pyfloat)
    (stdout_accepts : string → bool)
    (solve : LpProblem → result (LpStatus * (var → Q)))
    (req : request) (st : LpStatus) (sched : list day_entry)
    (log : list LpProblem) :
  solve_meal_plan float_of_string stdout_accepts solve req = (Solved st sched, log) →
  NoDup (day <$> sched) ∧
  ∀ e, e ∈ sched →
    NoDup (meal_type <$> day_meals e) ∧
    ∀ me, me ∈ day_meals e →
      ∃ r, r ∈ recipes req ∧ recipeId me = recipe_id r.
Proof.
  intros (Hvalid & [p Hbuild] & values & h & _ & Hh & ->)%solved_extract.
  assert (built float_of_string stdout_accepts (inventory req) (recipes req) (meals req)
                (days req) p) as Hbuilt by by left.
  assert (1 ≤ days req)%nat as Hdays by lia.
  destruct (built_distinct _ _ _ _ _ _ _ Hdays Hbuilt) as [Hmeals _].
  rewrite extract_schedule_schedule_of.
  split.
  - eapply sublist_NoDup; [|apply schedule_of_days].
    apply NoDup_fmap_2_strong; [|apply NoDup_seq].
    intros d1 d2 _ _. apply day_label_inj.
  - intros e (d & _ & _ & -> & _)%schedule_of_entry. split.
    + eapply sublist_NoDup; [|apply day_meals_types]. done.
    + intros me (m & _ & Hslot)%list_elem_of_omap.
      apply slot_entry_Some in Hslot as (_ & r & Hr & _ & Hid). by exists r.
Qed.

Lemma schedule_one_entry_per_slot_witness :
  NoDup (day <$> extract_schedule [omelet; scramble] ["Breakfast"] (λ _, 1%Q) 1) ∧
  ∀ e, e ∈ extract_schedule [omelet; scramble] ["Breakfast"] (λ _, 1%Q) 1 →
    NoDup (meal_type <$> day_meals e) ∧
    ∀ me, me ∈ day_meals e →
      ∃ r, r ∈ [omelet; scramble] ∧ recipeId me = recipe_id r.
Proof.
  apply (schedule_one_entry_per_slot float_literals strict_utf8 all_ones_solver
           two_recipe_request Optimal _
           [model float_literals strict_utf8 (inventory two_recipe_request)
                  [omelet; scramble] ["Breakfast"] true 1 1]).
  vm_compute. reflexivity.
Defined.

(** ** The constraint families of a built model *)

(** C5. The anti-repetition family of the full model is exactly the
    constraints x(d,m,r) + x(d+1,m,r) <= 1, one per meal type, recipe and
    pair of consecutive days d, d+1 below the horizon; selecting one recipe
    in two slots violates none of them unless the two slots have the same
    meal type on consecutive days. *)
Theorem anti_repetition_scope
    (float_of_string : string → option pyfloat)
    (stdout_accepts : string → bool)
    (inventory : gmap string item_data) (recipes : list recipe)
    (meals : list string) (days : nat) (p : LpProblem) :
  build_prob float_of_string stdout_accepts inventory recipes meals days = Ok p →
  (∀ n c,
     (n, c) ∈ constraints p ∧ is_anti_repetition n ↔
     ∃ d m r, (S d < days)%nat ∧ m ∈ meals ∧ r ∈ recipes ∧
              n = NoConsecutive d m (recipe_id r) ∧
              c = at_most [one (d, m, recipe_id r);
                           one (S d, m, recipe_id r)] 1%Q) ∧
  (∀ d1 m1 d2 m2 rid,
     ¬ (m1 = m2 ∧ (d2 = S d1 ∨ d1 = S d2)) →
     ∀ n c, (n, c) ∈ constraints p → is_anti_repetition n →
            holds (two_slots (d1, m1, rid) (d2, m2, rid)) c).
Proof.
  intros (_ & _ & ->)%build_prob_Ok.
  assert (∀ n c,
    (n, c) ∈ constraints (model float_of_string stdout_accepts inventory recipes meals true 1 days)
    ∧ is_anti_repetition n ↔
    (n, c) ∈ anti_repetition recipes meals days) as Hfamily.
  { intros n c. rewrite elem_of_model. split.
    - intros [[Hex|[Hnd|[Hinv|[_ Hanti]]]] (d & m & rid & ->)]; [| | |done].
      + by apply elem_of_exclusivity in Hex as (? & ? & _ & _ & ? & _).
      + by apply elem_of_no_duplicate_per_day in Hnd as (? & ? & _ & _ & ? & _).
      + apply elem_of_inventory_capacity in Hinv
          as (i & data & _ & [[? _]|Hexp]); [done|].
        by apply elem_of_expiry_cutoff in Hexp
          as (? & ? & ? & ? & _ & _ & _ & _ & _ & _ & ? & _).
    - intros Hanti. split; [by repeat right|].
      apply elem_of_anti_repetition in Hanti as (d & m & r & _ & _ & _ & -> & _).
      by exists d, m, (recipe_id r). }
  split.
  - intros n c. by rewrite Hfamily, elem_of_anti_repetition.
  - intros d1 m1 d2 m2 rid Hfar n c Hin Hname.
    assert ((n, c) ∈ anti_repetition recipes meals days) as Hanti
      by by apply Hfamily.
    apply elem_of_anti_repetition in Hanti as (d & m & r & _ & _ & _ & -> & ->).
    unfold holds, eval, Qsum, two_slots, one. simpl.
    repeat case_decide; try lra.
    exfalso. apply Hfar.
    repeat match goal with H : _ ∨ _ |- _ => destruct H as [H|H] end;
      simplify_eq; (lia || (split; [done|]; lia) || (split; [done|]; auto)).
Qed.

Lemma anti_repetition_scope_witness :
  holds (two_slots (0%nat, "Breakfast", 0%Z) (0%nat, "Lunch", 0%Z))
        (at_most [one (0%nat, "Breakfast", 0%Z);
                  one (1%nat, "Breakfast", 0%Z)] 1%Q).
Proof.
  destruct (anti_repetition_scope float_literals strict_utf8 (inventory omelet_request)
              [omelet] ["Breakfast"] 2 omelet_model) as [Hfamily Hfar].
  - vm_compute. reflexivity.
  - destruct (proj2 (Hfamily (NoConsecutive 0 "Breakfast" 0) _)
                (ex_intro _ 0%nat (ex_intro _ "Breakfast" (ex_intro _ omelet
                   (conj (le_n 2) (conj (list_elem_of_here _ _)
                      (conj (list_elem_of_here _ _) (conj eq_refl eq_refl))))))))
      as [Hin Hname].
    apply (Hfar 0%nat "Breakfast" 0%nat "Lunch" 0%Z) with (n := NoConsecutive 0 "Breakfast" 0);
      [|done..].
    intros [? _]. discriminate.
Defined.

Lemma handle_expiry_cutoff float_of_string stdout_accepts item_name q w raw k :
  days_until_expiry_of float_of_string raw = Ok k →
  handle_expiry float_of_string stdout_accepts item_name (ItemDict q w (Some raw))
  = Cutoff k.
Proof. intros H. unfold handle_expiry. by rewrite H. Qed.

(** A constraint named after the expiry of an item comes from the cutoff of
    that item. *)
Lemma expiry_named_inv float_of_string stdout_accepts inventory recipes meals anti tier days
    t item_name d m rid c :
  (ExpiredItem t item_name d m rid, c) ∈
    constraints (model float_of_string stdout_accepts inventory recipes meals anti tier days) →
  ∃ data k r, inventory !! item_name = Some data ∧
    handle_expiry float_of_string stdout_accepts item_name data = Cutoff k ∧
    (d < days)%nat ∧ (k ≤ Z.of_nat d)%Z ∧ m ∈ meals ∧ r ∈ recipes ∧
    references r item_name ∧ rid = recipe_id r ∧ t = tier ∧
    c = force_zero (d, m, rid).
Proof.
  rewrite elem_of_model. intros [Hex|[Hnd|[Hinv|[_ Hanti]]]].
  - by apply elem_of_exclusivity in Hex as (? & ? & _ & _ & ? & _).
  - by apply elem_of_no_duplicate_per_day in Hnd as (? & ? & _ & _ & ? & _).
  - apply elem_of_inventory_capacity in Hinv
      as (i & data & Hi & [[? _]|Hexp]); [done|].
    apply elem_of_expiry_cutoff in Hexp
      as (k & d' & m' & r & Hk & Hd & Hkd & Hm & Hr & Href & Hn & ->).
    simplify_eq. by exists data, k, r.
  - by apply elem_of_anti_repetition in Hanti as (? & ? & ? & _ & _ & _ & ? & _).
Qed.

(** C3. In a built model, for an inventory item whose days_until_expiry is
    present and converts to the integer k: when k <= 0 every variable of a
    recipe that references the item is forced to 0; when 0 < k < horizon
    such a variable is forced to 0 on the days d >= k and no constraint of
    the item's expiry family bears on it on the days before k; a recipe
    that does not reference the item is never constrained by it. *)
Theorem expiry_cutoff_scope
    (float_of_string : string → option pyfloat)
    (stdout_accepts : string → bool)
    (inventory : gmap string item_data) (recipes : list recipe)
    (meals : list string) (days : nat) (p : LpProblem)
    (item_name : string) (q w : option Q) (raw : pyval) (k : Z) :
  built float_of_string stdout_accepts inventory recipes meals days p →
  inventory !! item_name = Some (ItemDict q w (Some raw)) →
  days_until_expiry_of float_of_string raw = Ok k →
  (∀ d m r, (d < days)%nat → m ∈ meals → r ∈ recipes →
     references r item_name →
     ((k ≤ 0)%Z → expiry_forces_zero p item_name (d, m, recipe_id r)) ∧
     ((0 < k < Z.of_nat days)%Z →
        ((k ≤ Z.of_nat d)%Z → expiry_forces_zero p item_name (d, m, recipe_id r)) ∧
        ((Z.of_nat d < k)%Z → ¬ expiry_constrained p item_name (d, m, recipe_id r)))) ∧
  (∀ d m r, r ∈ recipes → ¬ references r item_name →
     ¬ expiry_constrained p item_name (d, m, recipe_id r)).
Proof.
  intros Hbuilt Hitem Hconv.
  pose proof (handle_expiry_cutoff _ stdout_accepts item_name q w _ _ Hconv) as Hk.
  pose proof Hbuilt as (_ & anti & tier & -> & _)%built_model.
  assert (∀ d m r, (d < days)%nat → m ∈ meals → r ∈ recipes →
            references r item_name → (k ≤ Z.of_nat d)%Z →
            expiry_forces_zero
              (model float_of_string stdout_accepts inventory recipes meals anti tier days)
              item_name (d, m, recipe_id r)) as Hforced.
  { intros d m r Hd Hm Hr Href Hkd. exists tier. simpl.
    apply elem_of_model. do 2 right. left.
    apply elem_of_inventory_capacity. eexists _, _. split; [done|]. right.
    apply elem_of_expiry_cutoff. by exists k, d, m, r. }
  split.
  - intros d m r Hd Hm Hr Href. split; [|split].
    + intros Hk0. apply Hforced; try done. lia.
    + by apply Hforced.
    + intros Hdk (t & c & Hin). simpl in Hin.
      apply expiry_named_inv in Hin
        as (data & k' & r' & Hi & Hk' & _ & Hkd & _).
      rewrite Hitem in Hi. injection Hi as <-.
      rewrite Hk in Hk'. injection Hk' as <-. lia.
  - intros d m r Hr Href (t & c & Hin). simpl in Hin.
    apply expiry_named_inv in Hin
      as (data & k' & r' & _ & _ & Hd & _ & _ & Hr' & Href' & Hid & _).
    assert (1 ≤ days)%nat as Hdays by lia.
    destruct (built_distinct _ _ _ _ _ _ _ Hdays Hbuilt) as [_ Hids].
    apply Href. by rewrite (NoDup_fmap_eq recipe_id recipes r r' Hids Hr Hr' Hid).
Qed.

Lemma expiry_cutoff_scope_witness :
  expiry_forces_zero porridge_model "milk" (1%nat, "Breakfast", 7%Z) ∧
  ¬ expiry_constrained porridge_model "milk" (0%nat, "Breakfast", 7%Z).
Proof.
  destruct (expiry_cutoff_scope float_literals strict_utf8 {[ "milk" := milk ]} [porridge]
              ["Breakfast"] 2 porridge_model "milk" (Some 3%Q) None (JInt 1) 1)
    as [H _].
  - left. vm_compute. reflexivity.
  - reflexivity.
  - reflexivity.
  - assert (references porridge "milk") as Href by (by eexists).
    assert (porridge ∈ [porridge]) as Hr by (by apply list_elem_of_singleton).
    assert ("Breakfast" ∈ ["Breakfast"]) as Hm by (by apply list_elem_of_singleton).
    destruct (H 1%nat "Breakfast" porridge ltac:(lia) Hm Hr Href) as [_ H1].
    destruct (H 0%nat "Breakfast" porridge ltac:(lia) Hm Hr Href) as [_ H0].
    split; [apply H1|apply H0]; lia.
Defined.

(** ** Feasibility of the full model *)

Lemma eval_nothing_selected e : (eval nothing_selected e == 0)%Q.
Proof.
  unfold eval. apply Qsum_zero. intros t _. unfold nothing_selected. ring.
Qed.

Lemma relax_build_error float_of_string stdout_accepts solve inventory recipes meals days e :
  build_prob float_of_string stdout_accepts inventory recipes meals days = Raise e →
  relax float_of_string stdout_accepts solve inventory recipes meals days = (Raise e, []).
Proof. intros H. unfold relax. by rewrite H. Qed.

(** C8. When no inventory quantity is negative, every constraint of the
    full model is an inequality whose left-hand side is 0 under the
    all-zero assignment and whose bound is not negative, or an equality
    that forces one variable to 0; so the all-zero assignment is feasible,
    and with a solver that succeeds on feasible models the endpoint calls
    the solver once, on the full model, and answers with its schedule
    (or with the server error when the model cannot be built): the relaxed
    and shrunk models and the no-solution response are out of reach. *)
Theorem full_model_feasible
    (float_of_string : string → option pyfloat)
    (stdout_accepts : string → bool)
    (solve : LpProblem → result (LpStatus * (var → Q))) (req : request) :
  valid req →
  (∀ item_name data, inventory req !! item_name = Some data →
     (0 <= available_qty data)%Q) →
  (∀ p, build_prob float_of_string stdout_accepts (inventory req) (recipes req) (meals req)
                   (days req) = Ok p →
     feasible nothing_selected p ∧
     ∀ n c, (n, c) ∈ constraints p →
       (csense c = LE ∧ (eval nothing_selected (lhs c) == 0)%Q ∧ (0 <= rhs c)%Q) ∨
       (∃ v, c = force_zero v)) ∧
  ((∀ p, (∃ values, feasible values p) →
         ∃ st values, solve p = Ok (st, values) ∧ (st = Optimal ∨ st = Feasible)) →
   match build_prob float_of_string stdout_accepts (inventory req) (recipes req) (meals req)
                    (days req) with
   | Ok p =>
       ∃ st values,
         solve p = Ok (st, values) ∧
         solve_meal_plan float_of_string stdout_accepts solve req =
         (Solved st
                 (extract_schedule (recipes req) (meals req) values (days req)),
          [p])
   | Raise _ =>
       solve_meal_plan float_of_string stdout_accepts solve req = (ServerError, [])
   end).
Proof.
  intros Hvalid Hqty.
  assert (∀ p, build_prob float_of_string stdout_accepts (inventory req) (recipes req)
                 (meals req) (days req) = Ok p →
     ∀ n c, (n, c) ∈ constraints p →
       (csense c = LE ∧ (eval nothing_selected (lhs c) == 0)%Q ∧ (0 <= rhs c)%Q) ∨
       (∃ v, c = force_zero v)) as Hshape.
  { intros p (_ & _ & ->)%build_prob_Ok n c.
    rewrite elem_of_model. intros [Hex|[Hnd|[Hinv|[_ Hanti]]]].
    - apply elem_of_exclusivity in Hex as (d & m & _ & _ & _ & ->).
      left. split_and!; [done|apply eval_nothing_selected|done].
    - apply elem_of_no_duplicate_per_day in Hnd as (d & r & _ & _ & _ & ->).
      left. split_and!; [done|apply eval_nothing_selected|done].
    - apply elem_of_inventory_capacity in Hinv
        as (i & data & Hi & [[_ ->]|Hexp]).
      + left. split_and!; [done|apply eval_nothing_selected|by eapply Hqty].
      + apply elem_of_expiry_cutoff in Hexp
          as (k & d & m & r & _ & _ & _ & _ & _ & _ & _ & ->).
        right. by eexists.
    - apply elem_of_anti_repetition in Hanti as (d & m & r & _ & _ & _ & _ & ->).
      left. split_and!; [done|apply eval_nothing_selected|done]. }
  assert (∀ p, build_prob float_of_string stdout_accepts (inventory req) (recipes req)
                 (meals req) (days req) = Ok p →
               feasible nothing_selected p) as Hfeasible.
  { intros p Hbuild. split.
    - intros v _. by left.
    - intros n c Hin. unfold holds.
      destruct (Hshape p Hbuild n c Hin) as [(-> & -> & ?)|[v ->]]; [done|].
      simpl. apply eval_nothing_selected. }
  split; [intros p Hbuild; split; [by apply Hfeasible|by apply Hshape]|].
  intros Hcomplete. rewrite (solve_meal_plan_valid _ _ _ _ Hvalid).
  destruct (build_prob _ _ _ _ _) as [p|e] eqn:Hbuild.
  - destruct (Hcomplete p) as (st & values & Hsolve & Hok); [eauto|].
    assert (1 ≤ days req)%nat as Hdays by (unfold valid in Hvalid; lia).
    pose proof Hbuild as (Hconv & Hacc & ->)%build_prob_Ok.
    exists st, values. split; [done|].
    rewrite relax_spec by done. cbv zeta. unfold attempts.
    rewrite list_find_cons, decide_True
      by (unfold decisive; simpl; by rewrite Hsolve).
    unfold outcome_of. simpl. rewrite Hsolve. unfold respond.
    apply status_ok_successful in Hok. by rewrite Hok.
  - by rewrite (relax_build_error _ _ _ _ _ _ _ e).
Qed.

Lemma full_model_feasible_witness :
  solve_meal_plan float_literals strict_utf8 first_day_solver omelet_request =
  (Solved Optimal (extract_schedule [omelet] ["Breakfast"] first_day_only 2),
   [omelet_model]).
Proof.
  assert (∀ item_name data,
            inventory omelet_request !! item_name = Some data →
            (0 <= available_qty data)%Q) as Hqty.
  { intros item_name data Hi. unfold omelet_request in Hi. simpl in Hi.
    apply lookup_singleton_Some in Hi as [_ <-]. vm_compute. discriminate. }
  pose proof (proj2 (full_model_feasible float_literals strict_utf8
                       first_day_solver omelet_request omelet_valid Hqty)) as H.
  assert (build_prob float_literals strict_utf8 (inventory omelet_request)
            (recipes omelet_request) (meals omelet_request)
            (days omelet_request) = Ok omelet_model) as Hbuild
    by (vm_compute; reflexivity).
  rewrite Hbuild in H.
  destruct H as (st & values & [= <- <-] & ->); [|reflexivity].
  intros p _. exists Optimal, first_day_only. split; [reflexivity|by left].
Defined.

(** ** Consumption of a schedule *)

Lemma bind_filter_nil {A B} (P : A → Prop) `{∀ x, Decision (P x)}
    (g : A → list B) (l : list A) :
  (∀ x, ¬ P x → g x = []) → filter P l ≫= g = l ≫= g.
Proof.
  intros Hg. induction l as [|x l IH]; [done|].
  rewrite filter_cons. case_decide as HP; csimpl; rewrite IH; [done|].
  by rewrite (Hg x HP).
Qed.

Lemma Qsum_omap {A B} (f : A → option B) (h : B → Q) (l : list A) :
  (Qsum (y ← omap f l; [h y]) ==
   Qsum ((λ x, match f x with Some y => h y | None => 0 end) <$> l))%Q.
Proof.
  induction l as [|x l IH]; csimpl; [reflexivity|].
  destruct (f x) as [y|]; csimpl; rewrite IH; ring.
Qed.

Lemma eval_cons values c v e :
  (eval values ((c, v) :: e) == c * values v + eval values e)%Q.
Proof. unfold eval. simpl. reflexivity. Qed.

Section Slot.

Context (values : var → Q) (d : nat) (m : string) (amount : recipe → Q).

Let key (r : recipe) : var := (d, m, recipe_id r).

Lemma binary_sum_nonneg (rs : list recipe) :
  (∀ r, r ∈ rs → binary values (key r)) →
  (0 <= eval values ((λ r, one (key r)) <$> rs))%Q.
Proof.
  induction rs as [|r rs IH]; intros Hbin.
  - unfold eval. simpl. lra.
  - rewrite fmap_cons. unfold one at 1. rewrite eval_cons.
    assert (0 <= eval values ((λ r, one (key r)) <$> rs))%Q
      by (apply IH; intros r' Hr'; apply Hbin; by right).
    destruct (Hbin r) as [E|E]; [left|rewrite E; lra..].
Qed.

Lemma binary_sum_zero (rs : list recipe) :
  (∀ r, r ∈ rs → binary values (key r)) →
  (eval values ((λ r, one (key r)) <$> rs) <= 0)%Q →
  (eval values (r ← rs; [(amount r, key r)]) == 0)%Q.
Proof.
  induction rs as [|r rs IH]; intros Hbin Hsum.
  - unfold eval. simpl. reflexivity.
  - rewrite fmap_cons in Hsum. unfold one at 1 in Hsum. rewrite eval_cons in Hsum.
    csimpl. rewrite eval_cons.
    assert (0 <= eval values ((λ r, one (key r)) <$> rs))%Q
      by (apply binary_sum_nonneg; intros r' Hr'; apply Hbin; by right).
    destruct (Hbin r) as [E|E]; [left| |]; rewrite E in Hsum |- *; [|lra].
    rewrite IH; [ring| |lra]. intros r' Hr'. apply Hbin. by right.
Qed.

(** With binary values and at most one recipe selected, the usage of a
    slot is the amount of the first selected recipe. *)
Lemma slot_usage (rs : list recipe) :
  (∀ r, r ∈ rs → binary values (key r)) →
  (eval values ((λ r, one (key r)) <$> rs) <= 1)%Q →
  (eval values (r ← rs; [(amount r, key r)]) ==
   match list_find (selected values d m) rs with
   | Some (_, r) => amount r
   | None => 0
   end)%Q.
Proof.
  induction rs as [|r rs IH]; intros Hbin Hsum.
  - unfold eval. simpl. reflexivity.
  - rewrite fmap_cons in Hsum. unfold one at 1 in Hsum. rewrite eval_cons in Hsum.
    rewrite bind_cons, eval_app, eval_singleton, list_find_cons.
    assert (∀ r', r' ∈ rs → binary values (key r')) as Hbin'
      by (intros r' Hr'; apply Hbin; by right).
    pose proof (binary_sum_nonneg rs Hbin') as Hnonneg.
    destruct (Hbin r) as [E|E]; [left| |].
    + rewrite decide_False by (unfold selected; fold (key r); lra).
      rewrite E, IH; [|done|rewrite E in Hsum; lra].
      destruct (list_find _ rs) as [[i r']|]; simpl; ring.
    + rewrite decide_True by done. rewrite E in Hsum |- *.
      rewrite binary_sum_zero; [ring|done|lra].
Qed.

End Slot.

Section Consumption.

Context (float_of_string : string → option pyfloat).
Context (stdout_accepts : string → bool).
Context (inventory : gmap string item_data).
Context (recipes : list recipe) (meals : list string).

Lemma objective_variable anti tier days d m r :
  (d < days)%nat → m ∈ meals → r ∈ recipes →
  (d, m, recipe_id r) ∈
    variables (model float_of_string stdout_accepts inventory recipes meals anti tier days).
Proof.
  intros Hd Hm Hr. unfold variables. apply elem_of_app. left. simpl.
  apply list_elem_of_fmap. exists (objective_term inventory days d m r).
  split; [done|]. unfold objective_terms.
  apply list_elem_of_bind. exists d. split; [|apply elem_of_seq; lia].
  apply list_elem_of_bind. exists m. split; [|done].
  apply list_elem_of_bind. exists r. split; [|done].
  by apply list_elem_of_singleton.
Qed.

Lemma required_amount_selected item_name values d m i r :
  NoDup (recipe_id <$> recipes) →
  list_find (selected values d m) recipes = Some (i, r) →
  required_amount recipes item_name (recipe_id r) =
  default 0%Q (ingredients r !! item_name).
Proof.
  intros Hids (Hi%list_elem_of_lookup_2 & _ & _)%list_find_Some.
  unfold required_amount.
  destruct (list_find (λ r', recipe_id r' = recipe_id r) recipes)
    as [[j r']|] eqn:E.
  - apply list_find_Some in E as (Hj%list_elem_of_lookup_2 & Hid & _).
    by rewrite (NoDup_fmap_eq recipe_id recipes r' r Hids Hj Hi Hid).
  - apply list_find_None in E. rewrite Forall_forall in E.
    by destruct (E r Hi).
Qed.

Lemma consumption_schedule_of item_name values days :
  (consumption recipes item_name (schedule_of recipes meals values days) ==
   Qsum ((λ d, Qsum ((λ m,
           match slot_entry recipes values d m with
           | Some me => required_amount recipes item_name (recipeId me)
           | None => 0
           end) <$> meals)) <$> seq 0 days))%Q.
Proof.
  unfold consumption, schedule_of.
  rewrite bind_filter_nil.
  2: { intros e He. destruct (day_meals e); [done|]. by destruct He. }
  rewrite list_fmap_bind, Qsum_bind. apply Qsum_ext. intros d _. simpl.
  apply Qsum_omap.
Qed.

End Consumption.

(** C4. For a schedule extracted from values that satisfy a built model
    (binary variables, every constraint), and for every inventory item,
    the amounts of the item required by the scheduled recipes add up to no
    more than the item's available quantity. *)
Theorem schedule_within_inventory
    (float_of_string : string → option pyfloat)
    (stdout_accepts : string → bool)
    (inventory : gmap string item_data) (recipes : list recipe)
    (meals : list string) (days : nat) (p : LpProblem)
    (values : var → Q) (item_name : string) (data : item_data) :
  built float_of_string stdout_accepts inventory recipes meals days p →
  feasible values p →
  inventory !! item_name = Some data →
  (consumption recipes item_name (extract_schedule recipes meals values days)
   <= available_qty data)%Q.
Proof.
  intros Hbuilt [Hbinary Hholds] Hitem.
  rewrite extract_schedule_schedule_of.
  pose proof Hbuilt as (_ & anti & tier & -> & _)%built_model.
  assert ((InventoryLimit item_name,
           at_most (total_usage recipes meals days item_name) (available_qty data))
          ∈ constraints (model float_of_string stdout_accepts inventory recipes meals anti tier days))
    as Hlimit.
  { apply elem_of_model. do 2 right. left. apply elem_of_inventory_capacity.
    exists item_name, data. split; [done|by left]. }
  apply Hholds in Hlimit. unfold holds in Hlimit. simpl in Hlimit.
  eapply Qle_trans; [|exact Hlimit]. apply Qle_lteq. right.
  rewrite consumption_schedule_of. unfold total_usage.
  rewrite eval_bind. apply Qsum_ext. intros d Hd%elem_of_seq.
  rewrite eval_bind. apply Qsum_ext. intros m Hm.
  assert (1 ≤ days)%nat as Hdays by lia.
  destruct (built_distinct _ _ _ _ _ _ _ Hdays Hbuilt) as [_ Hids].
  rewrite (slot_usage values d m
             (λ r, default 0%Q (ingredients r !! item_name))).
  - unfold slot_entry.
    destruct (list_find (selected values d m) recipes) as [[i r]|] eqn:E;
      [|reflexivity].
    simpl. by rewrite (required_amount_selected _ _ _ _ _ _ _ Hids E).
  - intros r Hr. apply Hbinary. apply objective_variable; [lia|done..].
  - assert ((AtMostOneRecipePerMeal d m,
             at_most ((λ r, one (d, m, recipe_id r)) <$> recipes) 1%Q)
            ∈ constraints (model float_of_string stdout_accepts inventory recipes meals
                                 anti tier days)) as Hex.
    { apply elem_of_model. left. apply elem_of_exclusivity.
      exists d, m. split_and!; [lia|done..]. }
    by apply Hholds in Hex.
Qed.

Lemma first_day_feasible : feasible first_day_only omelet_model.
Proof.
  split.
  - intros v _. unfold binary, first_day_only. case_decide; [by right|by left].
  - intros n c Hin. set (cs := constraints omelet_model) in Hin.
    vm_compute in cs. subst cs.
    repeat (apply elem_of_cons in Hin as [[= -> ->]|Hin];
            [vm_compute; by intros ?|]).
    by apply elem_of_nil in Hin.
Qed.

Lemma schedule_within_inventory_witness :
  (consumption [omelet] "eggs"
     (extract_schedule [omelet] ["Breakfast"] first_day_only 2)
   <= available_qty eggs)%Q.
Proof.
  apply (schedule_within_inventory float_literals strict_utf8 (inventory omelet_request)
           [omelet] ["Breakfast"] 2 omelet_model first_day_only "eggs" eggs).
  - left. vm_compute. reflexivity.
  - apply first_day_feasible.
  - reflexivity.
Defined.

(** ** The omelet scenario *)

Lemma omelet_model_any_literals float_of_string stdout_accepts :
  model float_of_string stdout_accepts (inventory omelet_request) [omelet] ["Breakfast"]
        true 1 2 = omelet_model.
Proof. reflexivity. Qed.

Lemma omelet_values values :
  feasible values omelet_model →
  binary values (0%nat, "Breakfast", 0%Z) ∧
  binary values (1%nat, "Breakfast", 0%Z) ∧
  (values (0%nat, "Breakfast", 0%Z) + values (1%nat, "Breakfast", 0%Z) <= 1)%Q.
Proof.
  intros [Hbinary Hholds]. split_and!.
  - apply Hbinary. apply (objective_variable float_literals strict_utf8
      (inventory omelet_request) [omelet] ["Breakfast"] true 1 2 0 "Breakfast" omelet);
      [lia|by apply list_elem_of_singleton..].
  - apply Hbinary. apply (objective_variable float_literals strict_utf8
      (inventory omelet_request) [omelet] ["Breakfast"] true 1 2 1 "Breakfast" omelet);
      [lia|by apply list_elem_of_singleton..].
  - assert ((NoConsecutive 0 "Breakfast" 0,
             at_most [one (0%nat, "Breakfast", 0%Z);
                      one (1%nat, "Breakfast", 0%Z)] 1%Q)
            ∈ constraints omelet_model) as Hin.
    { apply elem_of_model. repeat right. split; [done|].
      apply elem_of_anti_repetition. exists 0%nat, "Breakfast", omelet.
      split_and!; [lia|by apply list_elem_of_singleton..|done|done]. }
    apply Hholds in Hin. unfold holds, eval, Qsum, one in Hin. simpl in Hin. lra.
Qed.

Lemma omelet_objective values :
  (eval values (objective omelet_model) ==
   90500 * values (0%nat, "Breakfast", 0%Z) +
   40500 * values (1%nat, "Breakfast", 0%Z))%Q.
Proof.
  set (obj := objective omelet_model). vm_compute in obj. subst obj.
  unfold eval, Qsum. simpl. ring.
Qed.

Lemma first_day_optimal : optimal first_day_only omelet_model.
Proof.
  split; [apply first_day_feasible|].
  intros values' (Hb0 & Hb1 & Hsum)%omelet_values.
  rewrite !omelet_objective. unfold first_day_only.
  rewrite decide_True by done. rewrite decide_False by done.
  destruct Hb0 as [E0|E0], Hb1 as [E1|E1]; rewrite E0, E1 in Hsum |- *; lra.
Qed.

(** An optimal assignment of the omelet model selects the omelet on the
    first day and not on the second. *)
Lemma omelet_optimal_values values :
  optimal values omelet_model →
  Qeq_bool (values (0%nat, "Breakfast", 0%Z)) 1 = true ∧
  Qeq_bool (values (1%nat, "Breakfast", 0%Z)) 1 = false.
Proof.
  intros [Hfeasible Hbest].
  pose proof (Hbest first_day_only first_day_feasible) as Hle.
  rewrite !omelet_objective in Hle. unfold first_day_only in Hle.
  rewrite decide_True in Hle by done. rewrite decide_False in Hle by done.
  apply omelet_values in Hfeasible as (Hb0 & Hb1 & Hsum).
  destruct Hb0 as [E0|E0], Hb1 as [E1|E1]; rewrite E0, E1 in Hsum, Hle;
    try lra.
  split.
  - by apply Qeq_bool_iff.
  - destruct (Qeq_bool _ 1) eqn:E; [|done]. apply Qeq_bool_iff in E. lra.
Qed.

(** C7, as the code behaves: for two eggs, one omelet recipe, two days and
    breakfast only, with a solver that answers Optimal with optimal values
    on the full model, the endpoint returns status Optimal and a schedule
    that holds day 1 alone, with the omelet at breakfast; day 2 stays
    empty and is left out, and no relaxed model is tried. *)
Theorem omelet_first_day_only
    (float_of_string : string → option pyfloat)
    (stdout_accepts : string → bool)
    (solve : LpProblem → result (LpStatus * (var → Q))) :
  solves_optimally solve omelet_model →
  solve_meal_plan float_of_string stdout_accepts solve omelet_request =
  (Solved Optimal first_day_schedule, [omelet_model]).
Proof.
  intros (values & Hsolve & Hoptimal).
  apply omelet_optimal_values in Hoptimal as [H0 H1].
  rewrite (solve_meal_plan_valid _ _ _ _ omelet_valid).
  rewrite relax_spec.
  - cbv zeta. unfold attempts. simpl recipes. simpl meals. simpl days.
    rewrite omelet_model_any_literals, list_find_cons.
    rewrite decide_True by (unfold decisive; simpl; rewrite Hsolve; by left).
    unfold outcome_of. simpl. rewrite Hsolve. unfold respond. simpl.
    do 2 f_equal.
    unfold extract_schedule, extract_day. simpl. by rewrite H0, H1.
  - intros item_name data Hi e. unfold omelet_request in Hi. simpl in Hi.
    apply lookup_singleton_Some in Hi as [_ <-]. done.
  - simpl. lia.
  - simpl recipes. simpl meals. simpl days.
    rewrite omelet_model_any_literals. apply (bool_decide_unpack _).
    vm_compute. exact I.
Qed.

Lemma omelet_first_day_only_witness :
  solve_meal_plan float_literals strict_utf8 first_day_solver omelet_request =
  (Solved Optimal first_day_schedule, [omelet_model]).
Proof.
  apply (omelet_first_day_only float_literals strict_utf8 first_day_solver).
  exists first_day_only. split; [reflexivity|apply first_day_optimal].
Defined.

(** C7, as stated, fails: an exact solver exists for which the schedule
    does not cover both days. *)
Lemma omelet_not_both_days :
  ¬ (∀ solve, solves_optimally solve omelet_model →
       (solve_meal_plan float_literals strict_utf8 solve omelet_request).1 =
       Solved Optimal both_days_schedule).
Proof.
  intros H.
  specialize (H first_day_solver
                (ex_intro _ first_day_only (conj eq_refl first_day_optimal))).
  vm_compute in H. discriminate H.
Qed.

(** ** The days_until_expiry value *)

Lemma round_half_even_bounds q :
  (inject_Z (round_half_even q) - (1 # 2) <= q)%Q ∧
  (q <= inject_Z (round_half_even q) + (1 # 2))%Q.
Proof.
  unfold round_half_even.
  pose proof (Qfloor_le q) as Hlo. pose proof (Qlt_floor q) as Hhi.
  rewrite inject_Z_plus in Hhi. change (inject_Z 1) with 1%Q in Hhi.
  destruct (Qcompare (q - inject_Z (Qfloor q)) (1 # 2)) eqn:E.
  - apply Qeq_alt in E.
    destruct (Z.even _); rewrite ?inject_Z_plus;
      change (inject_Z 1) with 1%Q; lra.
  - apply Qlt_alt in E. lra.
  - apply Qgt_alt in E. rewrite inject_Z_plus.
    change (inject_Z 1) with 1%Q. lra.
Qed.

Lemma round_half_even_integer z : round_half_even (inject_Z z) = z.
Proof.
  unfold round_half_even. rewrite Qfloor_Z.
  destruct (Qcompare (inject_Z z - inject_Z z) (1 # 2)) eqn:E.
  - apply Qeq_alt in E. lra.
  - done.
  - apply Qgt_alt in E. lra.
Qed.

Lemma round_half_even_tie z :
  round_half_even (inject_Z z + (1 # 2)) = if Z.even z then z else (z + 1)%Z.
Proof.
  unfold round_half_even.
  pose proof (Qfloor_le (inject_Z z + (1 # 2))) as Hlo.
  pose proof (Qlt_floor (inject_Z z + (1 # 2))) as Hhi.
  set (f := Qfloor (inject_Z z + (1 # 2))) in *.
  rewrite inject_Z_plus in Hhi. change (inject_Z 1) with 1%Q in Hhi.
  assert (f = z) as ->.
  { assert (inject_Z f < inject_Z (z + 1))%Q as H1
      by (rewrite inject_Z_plus; change (inject_Z 1) with 1%Q; lra).
    assert (inject_Z z < inject_Z (f + 1))%Q as H2
      by (rewrite inject_Z_plus; change (inject_Z 1) with 1%Q; lra).
    rewrite <- Zlt_Qlt in H1, H2. lia. }
  assert (inject_Z z + (1 # 2) - inject_Z z == 1 # 2)%Q as Heq by ring.
  apply Qeq_alt in Heq. by rewrite Heq.
Qed.

Lemma handle_expiry_skipped float_of_string stdout_accepts item_name data e :
  handle_expiry float_of_string stdout_accepts item_name data = SkippedWithWarning e ↔
  (e = ValueError ∨ e = TypeError) ∧
  ∃ q w raw, data = ItemDict q w (Some raw) ∧
             days_until_expiry_of float_of_string raw = Raise e ∧
             warning_printable stdout_accepts item_name raw = true.
Proof.
  unfold handle_expiry. split.
  - destruct data as [q w [raw|]| |]; try done.
    destruct (days_until_expiry_of float_of_string raw) as [k|[]] eqn:E;
      try done;
      destruct (warning_printable stdout_accepts item_name raw) eqn:Hprint;
      try done; intros [= <-]; (split; [auto|by exists q, w, raw]).
  - intros ([-> | ->] & q & w & raw & -> & -> & ->); done.
Qed.

(** A value whose handling raises past the [try] statement ends the
    request in the server error before any solve. *)
Lemma escape_fails float_of_string stdout_accepts solve req item_name data e :
  valid req → inventory req !! item_name = Some data →
  handle_expiry float_of_string stdout_accepts item_name data = Escapes e →
  solve_meal_plan float_of_string stdout_accepts solve req = (ServerError, []).
Proof.
  intros Hvalid Hitem Hesc. rewrite (solve_meal_plan_valid _ _ _ _ Hvalid).
  destruct (build_prob float_of_string stdout_accepts (inventory req) (recipes req)
              (meals req) (days req)) as [p|e'] eqn:Hbuild.
  - apply build_prob_Ok in Hbuild as (Hconv & _).
    by destruct (Hconv _ _ Hitem e).
  - by rewrite (relax_build_error _ _ _ _ _ _ _ e').
Qed.

(** In a model, the variables an item's cutoff forces to 0. *)
Lemma expiry_forced_iff float_of_string stdout_accepts inventory recipes meals
    anti tier days item_name data k d m r :
  inventory !! item_name = Some data →
  handle_expiry float_of_string stdout_accepts item_name data = Cutoff k →
  (d < days)%nat → m ∈ meals → r ∈ recipes → references r item_name →
  expiry_forces_zero
    (model float_of_string stdout_accepts inventory recipes meals anti tier days)
    item_name (d, m, recipe_id r) ↔ (k ≤ Z.of_nat d)%Z.
Proof.
  intros Hitem Hk Hd Hm Hr Href. split.
  - intros (t & Hin). simpl in Hin.
    apply expiry_named_inv in Hin as (data' & k' & r' & Hi & Hk' & _ & Hkd & _).
    rewrite Hitem in Hi. injection Hi as <-.
    rewrite Hk in Hk'. by injection Hk' as <-.
  - intros Hkd. exists tier. simpl.
    apply elem_of_model. do 2 right. left.
    apply elem_of_inventory_capacity. eexists _, _. split; [done|]. right.
    apply elem_of_expiry_cutoff. by exists k, d, m, r.
Qed.

(** C10. In a model the endpoint has built, for an item with a
    days_until_expiry value: a finite float, or a string that reads as
    one, is rounded to the nearest integer (within one half, ties to the
    even neighbour) and the result is the cutoff, a variable (d, m, r) of a
    recipe that references the item being forced to 0 exactly when the
    rounded value is at most d, so that 0.4 gives 0 and forbids the item in
    every slot; and when the conversion raised, it raised ValueError or
    TypeError, the warning was printed and the item constrains no variable.
    Against the handler's promise not to crash, two values end the request
    in the server error before any solve: an infinite float, whose
    conversion raises OverflowError, and a string with a lone surrogate,
    which is no float literal and which a UTF-8 standard output refuses to
    print. *)
Theorem expiry_value_conversion
    (float_of_string : string → option pyfloat)
    (stdout_accepts : string → bool) :
  (∀ inventory recipes meals days p item_name qty w raw q,
     built float_of_string stdout_accepts inventory recipes meals days p →
     inventory !! item_name = Some (ItemDict qty w (Some raw)) →
     raw = JFloat (FFinite q) ∨
     (∃ s, raw = JStr s ∧ float_of_string s = Some (FFinite q)) →
     ∀ d m r, (d < days)%nat → m ∈ meals → r ∈ recipes →
       references r item_name →
       (expiry_forces_zero p item_name (d, m, recipe_id r) ↔
        (round_half_even q ≤ Z.of_nat d)%Z)) ∧
  (∀ q, (inject_Z (round_half_even q) - (1 # 2) <= q)%Q ∧
        (q <= inject_Z (round_half_even q) + (1 # 2))%Q) ∧
  (∀ z, round_half_even (inject_Z z + (1 # 2)) =
        if Z.even z then z else (z + 1)%Z) ∧
  round_half_even float_0_4 = 0%Z ∧
  (∀ inventory recipes meals days p item_name qty w raw e,
     built float_of_string stdout_accepts inventory recipes meals days p →
     inventory !! item_name = Some (ItemDict qty w (Some raw)) →
     days_until_expiry_of float_of_string raw = Raise e →
     (e = ValueError ∨ e = TypeError) ∧
     warning_printable stdout_accepts item_name raw = true ∧
     ∀ v, ¬ expiry_constrained p item_name v) ∧
  (∀ solve,
     solve_meal_plan float_of_string stdout_accepts solve infinite_expiry_request =
     (ServerError, [])) ∧
  (∀ solve,
     float_of_string lone_surrogate = None →
     stdout_accepts lone_surrogate = false →
     solve_meal_plan float_of_string stdout_accepts solve surrogate_request =
     (ServerError, [])).
Proof.
  split_and!.
  - intros inventory recipes meals days p item_name qty w raw q
      Hbuilt Hitem Hraw d m r Hd Hm Hr Href.
    assert (days_until_expiry_of float_of_string raw = Ok (round_half_even q))
      as Hconv.
    { destruct Hraw as [->|(s & -> & Hs)]; [done|].
      unfold days_until_expiry_of, py_float. by rewrite Hs. }
    apply built_model in Hbuilt as (_ & anti & tier & -> & _).
    eapply expiry_forced_iff; try done. by apply handle_expiry_cutoff.
  - apply round_half_even_bounds.
  - apply round_half_even_tie.
  - reflexivity.
  - intros inventory recipes meals days p item_name qty w raw e
      Hbuilt Hitem Hraise.
    pose proof Hbuilt as (Hconv & anti & tier & -> & _)%built_model.
    pose proof (Hconv _ _ Hitem) as Hpass.
    assert (∃ e', handle_expiry float_of_string stdout_accepts item_name
                    (ItemDict qty w (Some raw)) = SkippedWithWarning e')
      as [e' Hskip].
    { unfold handle_expiry in Hpass |- *. rewrite Hraise in Hpass |- *.
      destruct e, (warning_printable stdout_accepts item_name raw);
        try (by eexists); by edestruct Hpass. }
    pose proof Hskip as (He' & q' & w' & raw' & [= <- <- <-] & Hraise' & Hprint)
      %handle_expiry_skipped.
    rewrite Hraise in Hraise'. injection Hraise' as <-.
    split_and!; [done..|].
    intros [[d m] rid] (t & c & Hin). simpl in Hin.
    apply expiry_named_inv in Hin as (data' & k & r & Hi & Hk & _).
    rewrite Hitem in Hi. injection Hi as <-. by rewrite Hskip in Hk.
  - intros solve.
    apply (escape_fails _ _ _ _ "milk"
             (ItemDict (Some 3%Q) None (Some (JFloat (FInf false))))
             OverflowError); [|done..].
    unfold valid. vm_compute. split_and!; (done || lia).
  - intros solve Hliteral Hprint.
    apply (escape_fails _ _ _ _ "milk"
             (ItemDict (Some 3%Q) None (Some (JStr lone_surrogate)))
             UnicodeEncodeError); [|done|].
    + unfold valid. vm_compute. split_and!; (done || lia).
    + unfold handle_expiry, days_until_expiry_of, py_float, warning_printable.
      rewrite Hliteral, Hprint. simpl. by rewrite andb_false_r.
Qed.

Lemma expiry_value_conversion_witness :
  expiry_forces_zero
    (model float_literals strict_utf8 (inventory rounded_request) [porridge]
           ["Breakfast"] true 1 2)
    "milk" (0%nat, "Breakfast", 7%Z) ∧
  (∀ v, ¬ expiry_constrained
            (model float_literals strict_utf8 (inventory unreadable_request)
                   [porridge] ["Breakfast"] true 1 1)
            "milk" v) ∧
  solve_meal_plan float_literals strict_utf8 first_day_solver surrogate_request =
  (ServerError, []).
Proof.
  destruct (expiry_value_conversion float_literals strict_utf8)
    as (Hnumeric & _ & _ & _ & Hskipped & _ & Hsurrogate).
  split_and!.
  - assert (built float_literals strict_utf8 (inventory rounded_request)
              [porridge] ["Breakfast"] 2
              (model float_literals strict_utf8 (inventory rounded_request)
                     [porridge] ["Breakfast"] true 1 2)) as Hbuilt
      by (left; vm_compute; reflexivity).
    apply (Hnumeric _ _ _ _ _ "milk" (Some 3%Q) None (JStr "0.4") float_0_4
             Hbuilt eq_refl
             (or_intror (ex_intro _ "0.4" (conj eq_refl eq_refl)))
             0%nat "Breakfast" porridge).
    + lia.
    + left.
    + left.
    + by eexists.
    + vm_compute. discriminate.
  - apply (Hskipped (inventory unreadable_request) [porridge] ["Breakfast"]
             1%nat _ "milk" (Some 3%Q) None (JStr "soon") ValueError).
    + left. vm_compute. reflexivity.
    + reflexivity.
    + reflexivity.
  - apply Hsurrogate; reflexivity.
Defined.

Lemma extract_schedule_spec_witness :
  extract_schedule [omelet; scramble] ["Breakfast"] (λ _, 1%Q) 1 =
  [{| day := "Day 1"; day_meals := [breakfast_omelet] |}].
Proof.
  rewrite (proj1 (extract_schedule_spec [omelet; scramble] ["Breakfast"]
                    (λ _, 1%Q) 1)).
  reflexivity.
Defined.

(** * Further properties of the endpoint *)

(** ** Responses and solver calls *)

Lemma valid_dec_cases float_of_string stdout_accepts solve req :
  (¬ valid req ∧ solve_meal_plan float_of_string stdout_accepts solve req = (BadRequest, [])) ∨
  valid req.
Proof.
  unfold solve_meal_plan, valid.
  case_bool_decide as Hinv; [left; split; [tauto|done]|].
  case_bool_decide as Hrec.
  { left. split; [|done]. intros (_ & Hne & _). by destruct (recipes req). }
  case_bool_decide as Hmeals.
  { left. split; [|done]. intros (_ & _ & Hne & _). by destruct (meals req). }
  destruct (Nat.ltb_spec (days req) 1); simpl.
  { left. split; [|done]. lia. }
  destruct (Nat.ltb_spec 7 (days req)); simpl.
  { left. split; [|done]. lia. }
  right. split_and!; try done; try lia.
  - intros E. by rewrite E in Hrec.
  - intros E. by rewrite E in Hmeals.
Qed.

(** What makes PuLP and the handling of the expiry values accept the full
    model of a request. *)
Lemma build_prob_accepts float_of_string stdout_accepts inventory recipes meals days :
  (∃ p, build_prob float_of_string stdout_accepts inventory recipes meals days = Ok p) ↔
  conversions_pass float_of_string stdout_accepts inventory ∧
  NoDup (render <$> names (model float_of_string stdout_accepts inventory recipes
                                 meals true 1 days)).
Proof.
  split.
  - by intros [p (Hconv & Hnames & _)%build_prob_Ok].
  - intros (Hconv & Hnames). eexists. by apply build_prob_Ok.
Qed.

(** Names that PuLP accepts come from meal types that differ after the
    replacement of its special characters, and from distinct recipe ids. *)
Lemma rendered_distinct float_of_string stdout_accepts inventory recipes meals
    anti tier days :
  (1 ≤ days)%nat →
  NoDup (render <$> names (model float_of_string stdout_accepts inventory recipes
                                 meals anti tier days)) →
  NoDup (sanitise <$> meals) ∧ NoDup (recipe_id <$> recipes).
Proof.
  intros Hdays Hnames. split.
  - destruct days as [|days]; [lia|].
    unfold names, model, exclusivity in Hnames. cbn [constraints] in Hnames.
    rewrite <- cons_seq in Hnames. csimpl in Hnames.
    rewrite !fmap_app in Hnames.
    apply NoDup_app in Hnames as (Hnames & _ & _).
    apply NoDup_app in Hnames as (Hnames & _ & _).
    rewrite bind_singleton, <- !list_fmap_compose in Hnames.
    assert (NoDup (String.append (sanitise "AtMostOneRecipePerMeal_0_") <$>
                   (sanitise <$> meals))) as Hmeals.
    { rewrite <- list_fmap_compose.
      erewrite list_fmap_ext; [exact Hnames|].
      intros i m _. unfold render, compose. simpl fst. cbn [name_text].
      change (pretty 0%nat) with "0".
      by rewrite <- sanitise_app. }
    by apply NoDup_fmap_1 in Hmeals.
  - apply NoDup_fmap_1 in Hnames. by eapply names_NoDup_inv.
Qed.

Lemma attempts_length float_of_string stdout_accepts inventory recipes meals days :
  (1 ≤ days)%nat →
  length (attempts float_of_string stdout_accepts inventory recipes meals days) = S days.
Proof.
  intros Hdays. unfold attempts. simpl.
  rewrite length_fmap, length_rev, length_seq. lia.
Qed.

(** The four responses, each with what led to it and the solver calls
    made. *)
Lemma solve_meal_plan_cases float_of_string stdout_accepts solve req :
  let mdl := model float_of_string stdout_accepts (inventory req) (recipes req)
                   (meals req) in
  let tries := attempts float_of_string stdout_accepts (inventory req) (recipes req)
                        (meals req) (days req) in
  let accepted := conversions_pass float_of_string stdout_accepts (inventory req) ∧
                  NoDup (render <$> names (mdl true 1 (days req))) in
  (¬ valid req ∧ solve_meal_plan float_of_string stdout_accepts solve req = (BadRequest, [])) ∨
  (valid req ∧ ¬ accepted ∧
   solve_meal_plan float_of_string stdout_accepts solve req = (ServerError, [])) ∨
  (valid req ∧ accepted ∧
   ∃ i q h, list_find (decisive solve) tries = Some (i, (q, h)) ∧
     ((∃ e, solve q = Raise e ∧
         solve_meal_plan float_of_string stdout_accepts solve req =
         (ServerError, (take (S i) tries).*1)) ∨
      (∃ st values, solve q = Ok (st, values) ∧ successful st ∧
         solve_meal_plan float_of_string stdout_accepts solve req =
         (Solved st (extract_schedule (recipes req) (meals req) values h),
          (take (S i) tries).*1)))) ∨
  (valid req ∧ accepted ∧
   list_find (decisive solve) tries = None ∧
   ∃ st values, solve (mdl false 2 (days req)) = Ok (st, values) ∧
     ¬ successful st ∧
     solve_meal_plan float_of_string stdout_accepts solve req = (NoSolution st, tries.*1)).
Proof.
  intros mdl tries accepted.
  destruct (valid_dec_cases float_of_string stdout_accepts solve req)
    as [?|Hvalid]; [by left|].
  right. rewrite (solve_meal_plan_valid _ _ _ _ Hvalid).
  assert (1 ≤ days req)%nat as Hdays by (unfold valid in Hvalid; lia).
  destruct (build_prob float_of_string stdout_accepts (inventory req) (recipes req)
              (meals req) (days req)) as [p|e] eqn:Hbuild.
  - assert (accepted) as Hacc by (apply build_prob_accepts; eauto).
    right. destruct Hacc as (Hconv & Hnames).
    rewrite relax_spec by done. cbv zeta. fold tries.
    destruct (list_find (decisive solve) tries) as [[i [q h]]|] eqn:Hfind.
    + left. split_and!; try done. exists i, q, h. split; [done|].
      apply list_find_Some in Hfind as (_ & Hok & _).
      unfold decisive in Hok. unfold outcome_of. simpl in Hok |- *.
      destruct (solve q) as [[st values]|e]; [right|left; by exists e].
      exists st, values. split_and!; [done..|].
      unfold respond. apply status_ok_successful in Hok. by rewrite Hok.
    + right. split_and!; try done.
      apply list_find_None in Hfind. unfold tries, attempts in Hfind.
      apply Forall_cons in Hfind as [_ Hfind].
      apply Forall_cons in Hfind as [H2 _].
      unfold decisive in H2. unfold outcome_of. simpl in H2 |- *.
      fold mdl in H2 |- *.
      destruct (solve (mdl false 2 (days req))) as [[st values]|e];
        [|by destruct H2].
      exists st, values. split_and!; [done..|].
      unfold respond. rewrite <- status_ok_successful in H2.
      apply not_true_is_false in H2. by rewrite H2.
  - left. split_and!; [done| |by rewrite (relax_build_error _ _ _ _ _ _ _ e)].
    intros Hacc. apply build_prob_accepts in Hacc as [p Hp]. congruence.
Qed.

(** X1. The endpoint answers with the bad-request response exactly when
    the inventory, the recipes or the meal types are empty or the horizon
    is outside 1..7, and then the solver is never called. *)
Theorem validation_rejects
    (float_of_string : string → option pyfloat)
    (stdout_accepts : string → bool)
    (solve : LpProblem → result (LpStatus * (var → Q))) (req : request) :
  ((solve_meal_plan float_of_string stdout_accepts solve req).1 = BadRequest ↔ ¬ valid req) ∧
  (¬ valid req →
   solve_meal_plan float_of_string stdout_accepts solve req = (BadRequest, [])).
Proof.
  destruct (solve_meal_plan_cases float_of_string stdout_accepts solve req)
    as [[Hinvalid H]|[(Hvalid & _ & H)|
        [(Hvalid & _ & i & q & h & _ & [(e & _ & H)|(st & values & _ & _ & H)])|
         (Hvalid & _ & _ & st & values & _ & _ & H)]]]; rewrite H; simpl;
    (split; [split; [done|tauto]|tauto]).
Qed.

Lemma validation_rejects_witness :
  solve_meal_plan float_literals strict_utf8 first_day_solver eight_day_request =
  (BadRequest, []).
Proof.
  apply (validation_rejects float_literals strict_utf8 first_day_solver eight_day_request).
  unfold valid. simpl. lia.
Defined.

(** X2. A request that passes validation ends in the server error, before
    any solve, when two of its meal types are equal once PuLP has replaced
    its special characters by underscores (a meal type given twice is the
    plain case), when a recipe id occurs twice, or when the handling of
    some days_until_expiry value raises past the try statement. *)
Theorem server_error_causes
    (float_of_string : string → option pyfloat)
    (stdout_accepts : string → bool)
    (solve : LpProblem → result (LpStatus * (var → Q))) (req : request) :
  valid req →
  ¬ NoDup (sanitise <$> meals req) ∨
  ¬ NoDup (recipe_id <$> recipes req) ∨
  (∃ item_name data e,
     inventory req !! item_name = Some data ∧
     handle_expiry float_of_string stdout_accepts item_name data = Escapes e) →
  solve_meal_plan float_of_string stdout_accepts solve req = (ServerError, []).
Proof.
  intros Hvalid Hcause.
  assert (1 ≤ days req)%nat as Hdays by (unfold valid in Hvalid; lia).
  destruct (solve_meal_plan_cases float_of_string stdout_accepts solve req)
    as [[Hinvalid _]|[(_ & _ & H)|[(_ & Hacc & _)|(_ & Hacc & _)]]];
    [done|done|exfalso..].
  all: destruct Hacc as [Hconv Hnames].
  all: destruct (rendered_distinct _ _ _ _ _ _ _ _ Hdays Hnames) as [Hmeals Hids].
  all: destruct Hcause as [?|[?|(item_name & data & e & Hitem & Hesc)]];
    [done..|by destruct (Hconv _ _ Hitem e)].
Qed.

Lemma server_error_causes_witness :
  sanitise "Late lunch" = sanitise "Late-lunch" ∧
  solve_meal_plan float_literals strict_utf8 first_day_solver clashing_meal_request =
  (ServerError, []).
Proof.
  split; [reflexivity|].
  apply (server_error_causes float_literals strict_utf8 first_day_solver
           clashing_meal_request).
  - unfold valid. vm_compute. split_and!; (done || lia).
  - left. intros Hmeals. simpl in Hmeals.
    apply NoDup_cons in Hmeals as [Hin _]. apply Hin. left.
Defined.

(** X3. An infinite days_until_expiry value, like any value whose
    conversion raises OverflowError, is not skipped: the request ends in
    the server error before any solve. *)
Theorem infinite_expiry_fails
    (float_of_string : string → option pyfloat)
    (stdout_accepts : string → bool)
    (solve : LpProblem → result (LpStatus * (var → Q))) (req : request)
    (item_name : string) (q w : option Q) (raw : pyval) :
  valid req →
  inventory req !! item_name = Some (ItemDict q w (Some raw)) →
  days_until_expiry_of float_of_string raw = Raise OverflowError →
  solve_meal_plan float_of_string stdout_accepts solve req = (ServerError, []) ∧
  ∀ negative,
    days_until_expiry_of float_of_string (JFloat (FInf negative)) =
    Raise OverflowError.
Proof.
  intros Hvalid Hitem Hraw. split; [|done].
  destruct (solve_meal_plan_cases float_of_string stdout_accepts solve req)
    as [[Hinvalid _]|[(_ & _ & H)|[(_ & Hacc & _)|(_ & Hacc & _)]]];
    [done|done|exfalso..].
  all: destruct Hacc as (Hconv & _).
  all: apply (Hconv item_name _ Hitem OverflowError).
  all: unfold handle_expiry; by rewrite Hraw.
Qed.

Lemma infinite_expiry_fails_witness :
  solve_meal_plan float_literals strict_utf8 first_day_solver infinite_expiry_request =
  (ServerError, []).
Proof.
  apply (infinite_expiry_fails float_literals strict_utf8 first_day_solver
           infinite_expiry_request "milk" (Some 3%Q) None (JFloat (FInf false))).
  - unfold valid. vm_compute. split_and!; (done || lia).
  - reflexivity.
  - reflexivity.
Defined.

Lemma last_take_lookup {A} (l : list A) i x :
  l !! i = Some x → last (take (S i) l) = Some x.
Proof.
  intros Hi. rewrite last_lookup, length_take.
  pose proof (lookup_lt_Some _ _ _ Hi) as Hlt.
  replace (pred (S i `min` length l)) with i by lia.
  rewrite lookup_take_lt by lia. done.
Qed.

(** X4. The solver is called at most days + 1 times. A schedule comes
    with the status Optimal or Feasible that the solver reported on the
    last problem it was given; the no-solution response comes after
    exactly days + 1 calls, with the status reported on the second
    problem, which is neither of the two; no call precedes a bad-request
    response; a server error follows either no call at all or a call on
    which the solver raised. *)
Theorem response_status_and_calls
    (float_of_string : string → option pyfloat)
    (stdout_accepts : string → bool)
    (solve : LpProblem → result (LpStatus * (var → Q))) (req : request) :
  let log := (solve_meal_plan float_of_string stdout_accepts solve req).2 in
  (length log ≤ S (days req))%nat ∧
  match (solve_meal_plan float_of_string stdout_accepts solve req).1 with
  | Solved st _ =>
      (st = Optimal ∨ st = Feasible) ∧
      ∃ p values, last log = Some p ∧ solve p = Ok (st, values)
  | NoSolution st =>
      st ≠ Optimal ∧ st ≠ Feasible ∧ length log = S (days req) ∧
      ∃ p values, log !! 1%nat = Some p ∧ solve p = Ok (st, values)
  | BadRequest => log = []
  | ServerError =>
      log = [] ∨ ∃ p e, last log = Some p ∧ solve p = Raise e
  end.
Proof.
  cbv zeta.
  destruct (solve_meal_plan_cases float_of_string stdout_accepts solve req)
    as [[Hinvalid H]|[(Hvalid & _ & H)|
        [(Hvalid & _ & i & q & h & Hfind & Hcase)|
         (Hvalid & _ & _ & st & values & Hsolve & Hst & H)]]].
  - rewrite H. cbn [fst snd length]. split; [lia|done].
  - rewrite H. cbn [fst snd length]. split; [lia|by left].
  - assert (1 ≤ days req)%nat as Hdays by (unfold valid in Hvalid; lia).
    apply list_find_Some in Hfind as (Hi & _ & _).
    pose proof (lookup_lt_Some _ _ _ Hi) as Hlt.
    rewrite attempts_length in Hlt by done.
    assert (last (take (S i)
                    (attempts float_of_string stdout_accepts (inventory req)
                              (recipes req) (meals req) (days req))).*1
            = Some q) as Hlast.
    { rewrite fmap_take. apply last_take_lookup.
      by rewrite list_lookup_fmap, Hi. }
    destruct Hcase as [(e & Hsolve & H)|(st & values & Hsolve & Hst & H)];
      rewrite H; cbn [fst snd].
    + rewrite length_fmap, length_take, attempts_length by done.
      split; [lia|]. right. by exists q, e.
    + rewrite length_fmap, length_take, attempts_length by done.
      split; [lia|]. split; [done|]. by exists q, values.
  - assert (1 ≤ days req)%nat as Hdays by (unfold valid in Hvalid; lia).
    rewrite H. cbn [fst snd].
    rewrite length_fmap, attempts_length by done.
    unfold successful in Hst.
    split_and!; [lia|naive_solver..|done|].
    eexists _, values. split; [|exact Hsolve]. done.
Qed.

Lemma response_status_and_calls_witness :
  length (solve_meal_plan float_literals strict_utf8 stalling_solver
            omelet_request).2 = 3%nat ∧
  (solve_meal_plan float_literals strict_utf8 failing_solver omelet_request).1
  = ServerError ∧
  ∃ p, last (solve_meal_plan float_literals strict_utf8 failing_solver
               omelet_request).2 = Some p ∧
       failing_solver p = Raise PulpSolverError.
Proof.
  pose proof (response_status_and_calls float_literals strict_utf8
                stalling_solver omelet_request) as Hstall.
  pose proof (response_status_and_calls float_literals strict_utf8
                failing_solver omelet_request) as Hfail.
  cbv zeta in Hstall, Hfail.
  assert ((solve_meal_plan float_literals strict_utf8 stalling_solver
             omelet_request).1 = NoSolution Undefined) as Hno
    by (vm_compute; reflexivity).
  assert ((solve_meal_plan float_literals strict_utf8 failing_solver
             omelet_request).1 = ServerError) as Herr
    by (vm_compute; reflexivity).
  rewrite Hno in Hstall. rewrite Herr in Hfail.
  destruct Hstall as (_ & _ & _ & Hlen & _).
  destruct Hfail as (_ & [Hnil|(p & e & Hlast & Hraise)]).
  - exfalso. vm_compute in Hnil. discriminate Hnil.
  - split_and!; [exact Hlen|reflexivity|].
    exists p. split; [exact Hlast|]. rewrite Hraise. f_equal.
    unfold failing_solver in Hraise.
    destruct (decide _); [discriminate Hraise|by injection Hraise as <-].
Defined.

(** ** More on the constraint families *)

(** X5. In a built model an item adds no expiry constraint at all when it
    has no days_until_expiry field (or is not an object), when its value
    was skipped, or when its cutoff is at or beyond the horizon. *)
Theorem expiry_unconstrained
    (float_of_string : string → option pyfloat)
    (stdout_accepts : string → bool)
    (inventory : gmap string item_data) (recipes : list recipe)
    (meals : list string) (days : nat) (p : LpProblem)
    (item_name : string) (data : item_data) :
  built float_of_string stdout_accepts inventory recipes meals days p →
  inventory !! item_name = Some data →
  handle_expiry float_of_string stdout_accepts item_name data = NoExpiryField ∨
  (∃ e, handle_expiry float_of_string stdout_accepts item_name data
        = SkippedWithWarning e) ∨
  (∃ k, handle_expiry float_of_string stdout_accepts item_name data = Cutoff k ∧
        (Z.of_nat days ≤ k)%Z) →
  ∀ v, ¬ expiry_constrained p item_name v.
Proof.
  intros (_ & anti & tier & -> & _)%built_model Hitem Hcase [[d m] rid]
    (t & c & Hin). simpl in Hin.
  apply expiry_named_inv in Hin
    as (data' & k & r & Hi & Hk & Hd & Hkd & _).
  rewrite Hitem in Hi. injection Hi as <-. rewrite Hk in Hcase.
  destruct Hcase as [?|[[e ?]|(k' & [= <-] & ?)]]; [done..|lia].
Qed.

Lemma expiry_unconstrained_witness :
  handle_expiry float_literals strict_utf8 "eggs" eggs = NoExpiryField ∧
  ¬ expiry_constrained omelet_model "eggs" (0%nat, "Breakfast", 0%Z).
Proof.
  split; [reflexivity|].
  apply (expiry_unconstrained float_literals strict_utf8 (inventory omelet_request)
           [omelet] ["Breakfast"] 2 omelet_model "eggs" eggs).
  - left. vm_compute. reflexivity.
  - reflexivity.
  - by left.
Defined.

Lemma inventory_capacity_retag float_of_string stdout_accepts inventory recipes meals
    t1 t2 days n c :
  (n, c) ∈ inventory_capacity float_of_string stdout_accepts inventory recipes meals t1 days →
  ∃ n', (n', c) ∈ inventory_capacity float_of_string stdout_accepts inventory recipes meals t2 days.
Proof.
  intros Hin.
  assert (c ∈ (inventory_capacity float_of_string stdout_accepts inventory recipes meals
                 t2 days).*2) as Hc.
  { rewrite <- (inventory_capacity_tier _ _ _ _ _ t1 t2).
    apply list_elem_of_fmap. by exists (n, c). }
  apply list_elem_of_fmap in Hc as ([n' c'] & -> & Hin'). by exists n'.
Qed.

(** X6. Relaxation is monotone: values that satisfy the full model satisfy
    the relaxed model built for the same horizon. *)
Theorem relaxation_monotone
    (float_of_string : string → option pyfloat)
    (stdout_accepts : string → bool)
    (inventory : gmap string item_data) (recipes : list recipe)
    (meals : list string) (days : nat) (p p2 : LpProblem)
    (values : var → Q) :
  build_prob float_of_string stdout_accepts inventory recipes meals days = Ok p →
  build_prob2 float_of_string stdout_accepts inventory recipes meals days = Ok p2 →
  feasible values p → feasible values p2.
Proof.
  intros (_ & _ & ->)%build_prob_Ok (_ & _ & ->)%build_prob2_Ok [Hbinary Hholds].
  assert (∀ n c,
    (n, c) ∈ constraints (model float_of_string stdout_accepts inventory recipes meals false 2 days) →
    ∃ n', (n', c) ∈ constraints
                      (model float_of_string stdout_accepts inventory recipes meals true 1 days))
    as Hkept.
  { intros n c. rewrite elem_of_model.
    intros [Hex|[Hnd|[Hinv|[? _]]]]; [| | |done].
    - exists n. apply elem_of_model. by left.
    - exists n. apply elem_of_model. right. by left.
    - apply (inventory_capacity_retag _ _ _ _ _ 2 1) in Hinv as [n' Hinv].
      exists n'. apply elem_of_model. do 2 right. by left. }
  split.
  - intros v Hv. apply Hbinary. unfold variables in Hv |- *.
    apply elem_of_app in Hv as [Hv|Hv]; apply elem_of_app; [by left|right].
    apply list_elem_of_bind in Hv as ([n c] & Hv & Hin).
    apply Hkept in Hin as [n' Hin]. apply list_elem_of_bind. by exists (n', c).
  - intros n c Hin. apply Hkept in Hin as [n' Hin]. by eapply Hholds.
Qed.

Lemma relaxation_monotone_witness :
  feasible first_day_only
    (model float_literals strict_utf8 (inventory omelet_request) [omelet] ["Breakfast"]
           false 2 2).
Proof.
  apply (relaxation_monotone float_literals strict_utf8 (inventory omelet_request)
           [omelet] ["Breakfast"] 2 omelet_model _ first_day_only).
  - vm_compute. reflexivity.
  - vm_compute. reflexivity.
  - apply first_day_feasible.
Defined.

(** X7. Shape of every extracted schedule, whatever the values: at most
    one entry per day of the horizon, labelled "Day d+1" in increasing
    order of d; no day entry is empty; the meals of a day follow the order
    of the request's meal types, so there are at most as many as meal
    types. *)
Theorem schedule_shape
    (recipes : list recipe) (meals : list string)
    (values : var → Q) (days : nat) :
  sublist (day <$> extract_schedule recipes meals values days)
          (day_label <$> seq 0 days) ∧
  (length (extract_schedule recipes meals values days) ≤ days)%nat ∧
  ∀ e, e ∈ extract_schedule recipes meals values days →
    day_meals e ≠ [] ∧
    sublist (meal_type <$> day_meals e) meals ∧
    (length (day_meals e) ≤ length meals)%nat.
Proof.
  rewrite extract_schedule_schedule_of.
  pose proof (schedule_of_days recipes meals values days) as Hdays.
  split_and!; [done| |].
  - apply sublist_length in Hdays.
    by rewrite !length_fmap, length_seq in Hdays.
  - intros e (d & _ & _ & Hmeals & Hne)%schedule_of_entry.
    pose proof (day_meals_types recipes meals values d) as Htypes.
    rewrite <- Hmeals in Htypes. split_and!; [done..|].
    apply sublist_length in Htypes. by rewrite length_fmap in Htypes.
Qed.

(** ** Invariants of the schedules of feasible values *)

Lemma binary_vars_nonneg values (vs : list var) :
  (∀ v, v ∈ vs → binary values v) → (0 <= eval values (one <$> vs))%Q.
Proof.
  induction vs as [|v vs IH]; intros Hbin.
  - unfold eval. simpl. lra.
  - rewrite fmap_cons. unfold one at 1. rewrite eval_cons.
    assert (0 <= eval values (one <$> vs))%Q
      by (apply IH; intros v' Hv'; apply Hbin; by right).
    destruct (Hbin v) as [E|E]; [left|rewrite E; lra..].
Qed.

Lemma selected_var_counts values (vs : list var) v :
  (∀ v', v' ∈ vs → binary values v') → v ∈ vs → (values v == 1)%Q →
  (1 <= eval values (one <$> vs))%Q.
Proof.
  induction vs as [|v0 vs IH]; intros Hbin Hv Hone; [by apply elem_of_nil in Hv|].
  rewrite fmap_cons. unfold one at 1. rewrite eval_cons.
  assert (∀ v', v' ∈ vs → binary values v') as Hbin'
    by (intros v' Hv'; apply Hbin; by right).
  pose proof (binary_vars_nonneg values vs Hbin') as Hnonneg.
  apply elem_of_cons in Hv as [->|Hv].
  - rewrite Hone. lra.
  - pose proof (IH Hbin' Hv Hone). destruct (Hbin v0) as [E|E]; [left|rewrite E; lra..].
Qed.

Lemma two_selected_vars values (vs : list var) v1 v2 :
  (∀ v', v' ∈ vs → binary values v') → v1 ∈ vs → v2 ∈ vs → v1 ≠ v2 →
  (values v1 == 1)%Q → (values v2 == 1)%Q →
  (2 <= eval values (one <$> vs))%Q.
Proof.
  induction vs as [|v0 vs IH]; intros Hbin H1 H2 Hne E1 E2;
    [by apply elem_of_nil in H1|].
  rewrite fmap_cons. unfold one at 1. rewrite eval_cons.
  assert (∀ v', v' ∈ vs → binary values v') as Hbin'
    by (intros v' Hv'; apply Hbin; by right).
  apply elem_of_cons in H1 as [->|H1]; apply elem_of_cons in H2 as [->|H2].
  - done.
  - pose proof (selected_var_counts values vs v2 Hbin' H2 E2). rewrite E1. lra.
  - pose proof (selected_var_counts values vs v1 Hbin' H1 E1). rewrite E2. lra.
  - pose proof (IH Hbin' H1 H2 Hne E1 E2).
    destruct (Hbin v0) as [E|E]; [left|rewrite E; lra..].
Qed.

Lemma NoDup_omap_fmap {A B C} (f : A → option B) (g : B → C) (l : list A) :
  NoDup l →
  (∀ x y a b, x ∈ l → y ∈ l → f x = Some a → f y = Some b → g a = g b → x = y) →
  NoDup (g <$> omap f l).
Proof.
  induction l as [|x l IH]; intros Hl Hinj; csimpl; [constructor|].
  apply NoDup_cons in Hl as [Hx Hnd].
  assert (NoDup (g <$> omap f l)) as Hrest.
  { apply IH; [done|]. intros x' y' a b Hx' Hy'. apply Hinj; by right. }
  destruct (f x) as [a|] eqn:E; csimpl; [|done].
  apply NoDup_cons. split; [|done].
  intros (b & Hab & (y & Hy & Hfy)%list_elem_of_omap)%list_elem_of_fmap.
  apply Hx. rewrite (Hinj x y a b); [done|left|by right|done..].
Qed.

(** X8. In a schedule extracted from values that satisfy a built model no
    two meals of one day use the same recipe. *)
Theorem no_recipe_twice_a_day
    (float_of_string : string → option pyfloat)
    (stdout_accepts : string → bool)
    (inventory : gmap string item_data) (recipes : list recipe)
    (meals : list string) (days : nat) (p : LpProblem) (values : var → Q) :
  built float_of_string stdout_accepts inventory recipes meals days p →
  feasible values p →
  ∀ e, e ∈ extract_schedule recipes meals values days →
       NoDup (recipeId <$> day_meals e).
Proof.
  intros Hbuilt [Hbinary Hholds] e.
  rewrite extract_schedule_schedule_of.
  intros (d & Hd & _ & -> & _)%schedule_of_entry.
  assert (1 ≤ days)%nat as Hdays by lia.
  destruct (built_distinct _ _ _ _ _ _ _ Hdays Hbuilt) as [Hmeals Hids].
  pose proof Hbuilt as (_ & anti & tier & -> & _)%built_model.
  apply NoDup_omap_fmap; [done|].
  intros m1 m2 me1 me2 Hm1 Hm2
    (_ & r1 & Hr1 & Hsel1 & Hid1)%slot_entry_Some
    (_ & r2 & Hr2 & Hsel2 & Hid2)%slot_entry_Some Hsame.
  assert (r1 = r2) as <-
    by (apply (NoDup_fmap_eq recipe_id recipes); congruence).
  destruct (decide (m1 = m2)) as [|Hne]; [done|]. exfalso.
  assert ((NoDuplicateRecipe d (recipe_id r1),
           at_most ((λ m, one (d, m, recipe_id r1)) <$> meals) 1%Q)
          ∈ constraints (model float_of_string stdout_accepts inventory recipes meals
                               anti tier days)) as Hin.
  { apply elem_of_model. right. left. apply elem_of_no_duplicate_per_day.
    by exists d, r1. }
  apply Hholds in Hin. unfold holds, at_most in Hin. cbn [csense lhs rhs] in Hin.
  rewrite (list_fmap_compose (λ m, (d, m, recipe_id r1)) one) in Hin.
  apply (Qle_not_lt _ _ Hin). eapply Qlt_le_trans; [by instantiate (1 := 2%Q)|].
  apply (two_selected_vars values _ (d, m1, recipe_id r1) (d, m2, recipe_id r1)).
  - intros v (m & -> & Hm)%list_elem_of_fmap. apply Hbinary.
    by apply objective_variable.
  - apply list_elem_of_fmap. by exists m1.
  - apply list_elem_of_fmap. by exists m2.
  - congruence.
  - exact Hsel1.
  - exact Hsel2.
Qed.

Lemma two_meal_feasible : feasible two_meal_values two_meal_model.
Proof.
  split.
  - intros v _. unfold binary, two_meal_values, two_slots.
    case_decide; [right|left]; reflexivity.
  - intros n c Hc. set (cs := constraints two_meal_model) in Hc.
    vm_compute in cs. subst cs.
    repeat (apply elem_of_cons in Hc as [[= -> ->]|Hc];
            [vm_compute; by intros ?|]).
    by apply elem_of_nil in Hc.
Qed.

Lemma no_recipe_twice_a_day_witness :
  extract_schedule [omelet; scramble] ["Breakfast"; "Lunch"] two_meal_values 1 =
  [{| day := "Day 1";
      day_meals := [{| meal_type := "Breakfast"; recipeId := 0 |};
                    {| meal_type := "Lunch"; recipeId := 1 |}] |}] ∧
  NoDup (recipeId <$> [{| meal_type := "Breakfast"; recipeId := 0 |};
                       {| meal_type := "Lunch"; recipeId := 1 |}]).
Proof.
  split; [vm_compute; reflexivity|].
  apply (no_recipe_twice_a_day float_literals strict_utf8 {[ "eggs" := carton ]}
           [omelet; scramble] ["Breakfast"; "Lunch"] 1 two_meal_model
           two_meal_values)
    with (e := {| day := "Day 1";
                  day_meals := [{| meal_type := "Breakfast"; recipeId := 0 |};
                                {| meal_type := "Lunch"; recipeId := 1 |}] |}).
  - left. vm_compute. reflexivity.
  - apply two_meal_feasible.
  - vm_compute. left.
Defined.

(** X9. In a schedule extracted from values that satisfy a built model, a
    recipe that references an item with cutoff k is scheduled only on day
    indices below k (so never when k <= 0). *)
Theorem expired_never_scheduled
    (float_of_string : string → option pyfloat)
    (stdout_accepts : string → bool)
    (inventory : gmap string item_data) (recipes : list recipe)
    (meals : list string) (days : nat) (p : LpProblem) (values : var → Q)
    (item_name : string) (q w : option Q) (raw : pyval) (k : Z) :
  built float_of_string stdout_accepts inventory recipes meals days p →
  feasible values p →
  inventory !! item_name = Some (ItemDict q w (Some raw)) →
  days_until_expiry_of float_of_string raw = Ok k →
  ∀ e d me r,
    e ∈ extract_schedule recipes meals values days →
    day e = day_label d →
    me ∈ day_meals e → r ∈ recipes → recipe_id r = recipeId me →
    references r item_name →
    (Z.of_nat d < k)%Z.
Proof.
  intros Hbuilt [Hbinary Hholds] Hitem Hconv e d me r.
  rewrite extract_schedule_schedule_of.
  intros (d' & Hd & Hlabel & -> & _)%schedule_of_entry Hday
    (m & Hm & Hslot)%list_elem_of_omap Hr Hid Href.
  rewrite Hlabel in Hday. apply day_label_inj in Hday as ->.
  apply slot_entry_Some in Hslot as (_ & r0 & Hr0 & Hsel & Hid0).
  assert (1 ≤ days)%nat as Hdays by lia.
  destruct (built_distinct _ _ _ _ _ _ _ Hdays Hbuilt) as [_ Hids].
  assert (r = r0) as <-
    by (apply (NoDup_fmap_eq recipe_id recipes); congruence).
  pose proof Hbuilt as (_ & anti & tier & -> & _)%built_model.
  destruct (Z.lt_ge_cases (Z.of_nat d) k) as [|Hkd]; [done|]. exfalso.
  assert ((ExpiredItem tier item_name d m (recipe_id r),
           force_zero (d, m, recipe_id r))
          ∈ constraints (model float_of_string stdout_accepts inventory recipes meals
                               anti tier days)) as Hin.
  { apply elem_of_model. do 2 right. left.
    apply elem_of_inventory_capacity. eexists _, _. split; [done|]. right.
    apply elem_of_expiry_cutoff. exists k, d, m, r.
    split_and!; try done. by apply handle_expiry_cutoff. }
  apply Hholds in Hin. unfold holds, force_zero, one in Hin.
  cbn [csense lhs rhs] in Hin. rewrite eval_singleton in Hin.
  unfold selected in Hsel. rewrite Hsel in Hin. lra.
Qed.

Lemma porridge_first_day_feasible :
  feasible (two_slots (0%nat, "Breakfast", 7%Z) (0%nat, "Breakfast", 7%Z))
           porridge_model.
Proof.
  split.
  - intros v _. unfold binary, two_slots. case_decide; [by right|by left].
  - intros n c Hc. set (cs := constraints porridge_model) in Hc.
    vm_compute in cs. subst cs.
    repeat (apply elem_of_cons in Hc as [[= -> ->]|Hc];
            [vm_compute; first [reflexivity|by intros ?]|]).
    by apply elem_of_nil in Hc.
Qed.

Lemma expired_never_scheduled_witness : (Z.of_nat 0 < 1)%Z.
Proof.
  apply (expired_never_scheduled float_literals strict_utf8 {[ "milk" := milk ]} [porridge]
           ["Breakfast"] 2 porridge_model
           (two_slots (0%nat, "Breakfast", 7%Z) (0%nat, "Breakfast", 7%Z))
           "milk" (Some 3%Q) None (JInt 1) 1)
    with (e := {| day := "Day 1";
                  day_meals := [{| meal_type := "Breakfast"; recipeId := 7 |}] |})
         (me := {| meal_type := "Breakfast"; recipeId := 7 |})
         (r := porridge).
  - left. vm_compute. reflexivity.
  - apply porridge_first_day_feasible.
  - reflexivity.
  - reflexivity.
  - vm_compute. left.
  - reflexivity.
  - left.
  - left.
  - reflexivity.
  - by eexists.
Defined.

(** ** Numbers *)

(** X10. Rounding stays within one half of the value, and an integer
    days_until_expiry of magnitude below 2^53 (and a boolean) is taken as
    it is. *)
Theorem integer_expiry_unchanged
    (float_of_string : string → option pyfloat) (z : Z) :
  (Z.abs z < 2 ^ 53)%Z →
  days_until_expiry_of float_of_string (JInt z) = Ok z ∧
  days_until_expiry_of float_of_string (JBool true) = Ok 1%Z ∧
  days_until_expiry_of float_of_string (JBool false) = Ok 0%Z ∧
  ∀ q, (inject_Z (round_half_even q) - (1 # 2) <= q)%Q ∧
       (q <= inject_Z (round_half_even q) + (1 # 2))%Q.
Proof.
  intros Hz. split_and!; [|done..|apply round_half_even_bounds].
  unfold days_until_expiry_of, py_float, float_of_int.
  apply Z.ltb_lt in Hz. rewrite Hz. simpl. by rewrite round_half_even_integer.
Qed.

Lemma integer_expiry_unchanged_witness :
  days_until_expiry_of float_literals (JInt 3) = Ok 3%Z.
Proof.
  apply (integer_expiry_unchanged float_literals 3). reflexivity.
Defined.
